(** * convert_statement.py: layout-driven reconstruction of statement rows

    A shallow embedding of [src/convert_statement.py] and the properties of
    its row reconstructor.

    Conventions of the embedding.
    - A Python [str] is a [string]; each [ascii] is one character, read as
      the code point of the same number (0..255).  On these code points
      [str.isspace] and the regex class [\s] are the set
      9-13, 28-32, 133, 160, and [\d] is '0'..'9'.
    - The coordinates [x0] and [top] of a word are finite floats, held as
      the rationals ([Q]) they denote.  The program compares them with each
      other and with the column constants, which Python does exactly; the
      one arithmetic operation, the difference of two [top] values, is the
      binary64 one: the exact difference rounded to the nearest float, ties
      to even ([float_sub]).
    - A Python dict with a fixed set of keys is a record; [None] is [None];
      a list that is appended to is a list extended at its end.
    - The input of [extract_statement_records] is what [extract_words]
      returned for each page, in page order; opening the document is
      outside the embedding.
    - [Decimal(str)] and [float(Decimal)] follow CPython's [decimal] module
      (default context) and the correctly rounded conversion to binary64;
      the amounts are primitive binary64 floats.
    - An exception is a value [Raise e] of the type [result]. *)

From Stdlib Require Import String Ascii List Bool ZArith NArith QArith Qabs Lia Lqa.
From Stdlib Require Import Floats Sorted Permutation.
Import ListNotations.

Set Warnings "-inexact-float".

Local Open Scope string_scope.

(** ** Python string primitives used by the program *)

Module PyStr.

(** [str.isspace] of one character, which is also the regex class [\s]. *)
Definition isspace (c : ascii) : bool :=
  let n := N_of_ascii c in
  ((9 <=? n) && (n <=? 13) || (28 <=? n) && (n <=? 32)
   || (n =? 133) || (n =? 160))%N.

(** The regex class [\d] on the modelled code points. *)
Definition isdigit (c : ascii) : bool :=
  let n := N_of_ascii c in ((48 <=? n) && (n <=? 57))%N.

(** [s.lstrip()] *)
Fixpoint lstrip (s : string) : string :=
  match s with
  | EmptyString => EmptyString
  | String c s' => if isspace c then lstrip s' else s
  end.

(** [s.rstrip()] *)
Fixpoint rstrip (s : string) : string :=
  match s with
  | EmptyString => EmptyString
  | String c s' =>
      match rstrip s' with
      | EmptyString => if isspace c then EmptyString else String c EmptyString
      | r => String c r
      end
  end.

(** [s.strip()] *)
Definition strip (s : string) : string := rstrip (lstrip s).

(** [s.replace(old, new)] for a pattern [old] of one character. *)
Fixpoint replace (old : ascii) (new : string) (s : string) : string :=
  match s with
  | EmptyString => EmptyString
  | String c s' =>
      if Ascii.eqb c old then new ++ replace old new s'
      else String c (replace old new s')
  end.

(** [re.sub(r"\s+", " ", s)]: every maximal run of whitespace becomes one
    space.  [in_run] tells that the previous character was whitespace. *)
Fixpoint sub_spaces_from (in_run : bool) (s : string) : string :=
  match s with
  | EmptyString => EmptyString
  | String c s' =>
      if isspace c
      then (if in_run then sub_spaces_from true s'
            else String " " (sub_spaces_from true s'))
      else String c (sub_spaces_from false s')
  end.

Definition sub_spaces (s : string) : string := sub_spaces_from false s.

(** [sep.join(parts)] *)
Fixpoint join (sep : string) (parts : list string) : string :=
  match parts with
  | [] => EmptyString
  | [p] => p
  | p :: ps => p ++ sep ++ join sep ps
  end.

(** Truth value of a string: [bool(s)]. *)
Definition truthy (s : string) : bool :=
  match s with EmptyString => false | _ => true end.

End PyStr.

Import PyStr.

(** ** [_normalise_whitespace] *)

Definition _normalise_whitespace (text : string) : string :=
  let text := replace "~" " " text in
  let text := sub_spaces text in
  strip text.

(** *** The words of a string, as the specification describes the result *)

(** A separator is a tilde or a whitespace character. *)
Definition is_sep (c : ascii) : bool := isspace c || Ascii.eqb c "~".

Definition starts_word (s : string) : bool :=
  match s with
  | EmptyString => false
  | String c _ => negb (is_sep c)
  end.

(** The maximal runs of non-separator characters, left to right. *)
Fixpoint words_of (s : string) : list string :=
  match s with
  | EmptyString => []
  | String c s' =>
      if is_sep c then words_of s'
      else if starts_word s'
           then match words_of s' with
                | w :: ws => String c w :: ws
                | [] => [String c EmptyString]
                end
           else String c EmptyString :: words_of s'
  end.

(** The normal form in the specification's words: the words of the text,
    one space between two of them, nothing before the first or after the
    last. *)
Definition normalise_spec (s : string) : string := join " " (words_of s).

(** ** Exceptions *)

(** The exceptions the modelled library calls can raise. *)
Inductive exn : Type :=
| InvalidOperation   (* decimal.InvalidOperation *)
| ValueError
| OverflowError
| TypeError.

Inductive result (A : Type) : Type :=
| Ok (a : A)
| Raise (e : exn).

Arguments Ok {A} a.
Arguments Raise {A} e.

Definition bind {A B : Type} (r : result A) (k : A -> result B) : result B :=
  match r with
  | Ok a => k a
  | Raise e => Raise e
  end.

Notation "x <- r ;; k" := (bind r (fun x => k))
  (at level 61, r at next level, right associativity).

(** [for x in xs: f(x)] collecting the results; the first exception
    escapes. *)
Fixpoint mapM {A B : Type} (f : A -> result B) (xs : list A)
  : result (list B) :=
  match xs with
  | [] => Ok []
  | x :: xs' => y <- f x ;; ys <- mapM f xs' ;; Ok (y :: ys)
  end.

(** ** [decimal.Decimal(str)] and [float(Decimal)] *)

Module PyDecimal.

(** The value of a [Decimal]: a signed coefficient with a power of ten, an
    infinity, or a quiet or signalling NaN with its payload. *)
Inductive decimal : Type :=
| Finite (neg : bool) (coeff : N) (exp : Z)
| Infinity (neg : bool)
| NaN (neg : bool) (signalling : bool) (payload : N).

(** Limits of the exact constructor (64-bit libmpdec). *)
Definition MAX_EMAX : Z := 999999999999999999.
Definition MIN_ETINY : Z := -1999999999999999997.

Definition lower (c : ascii) : ascii :=
  let n := N_of_ascii c in
  if ((65 <=? n) && (n <=? 90))%N then ascii_of_N (n + 32) else c.

Fixpoint lower_string (s : string) : string :=
  match s with
  | EmptyString => EmptyString
  | String c s' => String (lower c) (lower_string s')
  end.

(** The longest prefix of decimal digits, and what follows it. *)
Fixpoint span_digits (s : string) : string * string :=
  match s with
  | EmptyString => (EmptyString, EmptyString)
  | String c s' =>
      if isdigit c
      then let (ds, rest) := span_digits s' in (String c ds, rest)
      else (EmptyString, s)
  end.

Fixpoint digits_value_from (acc : N) (ds : string) : N :=
  match ds with
  | EmptyString => acc
  | String c ds' => digits_value_from (10 * acc + (N_of_ascii c - 48))%N ds'
  end.

Definition digits_value (ds : string) : N := digits_value_from 0%N ds.

(** Number of decimal digits of a coefficient, 1 for zero. *)
Fixpoint count_digits (fuel : nat) (c : N) : Z :=
  match fuel with
  | O => 1%Z
  | S k => if (c <? 10)%N then 1%Z else (1 + count_digits k (c / 10)%N)%Z
  end.

Definition ndigits (c : N) : Z := count_digits (N.size_nat c) c.

Definition parse_sign (s : string) : bool * string :=
  match s with
  | String "-" s' => (true, s')
  | String "+" s' => (false, s')
  | _ => (false, s)
  end.

(** [exponent-part ::= ('e' | 'E') [sign] digits], or nothing. *)
Definition parse_exponent (s : string) : option Z :=
  match s with
  | EmptyString => Some 0%Z
  | String c s' =>
      if Ascii.eqb (lower c) "e" then
        let (eneg, s'') := parse_sign s' in
        match span_digits s'' with
        | (String d ds, EmptyString) =>
            let v := Z.of_N (digits_value (String d ds)) in
            Some (if eneg then (- v)%Z else v)
        | _ => None
        end
      else None
  end.

(** The exact constructor refuses what it would have to round or clamp. *)
Definition finalize (neg : bool) (coeff : N) (exp : Z) : result decimal :=
  if ((exp <? MIN_ETINY) || (MAX_EMAX <? exp + ndigits coeff - 1))%Z
  then Raise InvalidOperation
  else Ok (Finite neg coeff exp).

(** [decimal-part [exponent-part]] *)
Definition parse_finite (neg : bool) (s : string) : result decimal :=
  let (ip, r1) := span_digits s in
  let (fp, r2) :=
    match r1 with
    | String "." r => span_digits r
    | _ => (EmptyString, r1)
    end in
  if negb (truthy ip) && negb (truthy fp) then Raise InvalidOperation
  else match parse_exponent r2 with
       | None => Raise InvalidOperation
       | Some e =>
           finalize neg (digits_value (ip ++ fp))
                    (e - Z.of_nat (String.length fp))
       end.

(** ['NaN' [digits]] and ['sNaN' [digits]], the text already in lower
    case. *)
Definition parse_nan (neg : bool) (s : string) : option decimal :=
  match s with
  | String "n" (String "a" (String "n" p)) =>
      match span_digits p with
      | (ds, EmptyString) => Some (NaN neg false (digits_value ds))
      | _ => None
      end
  | String "s" (String "n" (String "a" (String "n" p))) =>
      match span_digits p with
      | (ds, EmptyString) => Some (NaN neg true (digits_value ds))
      | _ => None
      end
  | _ => None
  end.

(** [Decimal(value)] for a string, in the default context (which traps
    [InvalidOperation]): surrounding whitespace is stripped and underscores
    are removed, then the numeric string is read. *)
Definition Decimal (value : string) : result decimal :=
  let s := replace "_" "" (strip value) in
  let (neg, body) := parse_sign s in
  let low := lower_string body in
  if (String.eqb low "inf" || String.eqb low "infinity")%bool
  then Ok (Infinity neg)
  else match parse_nan neg low with
       | Some d => Ok d
       | None => parse_finite neg body
       end.

(** The binary64 number nearest to [n / d] (ties to even) for positive [n]
    and [d], with the sign [neg]: the quotient is taken with at least 54
    bits and the position of the remainder decides the rounding. *)
Definition round_ratio (neg : bool) (n d : Z) : spec_float :=
  let ex := (Z.log2 n - Z.log2 d - 55)%Z in
  let num := if (0 <=? ex)%Z then n else (n * 2 ^ (- ex))%Z in
  let den := if (0 <=? ex)%Z then (d * 2 ^ ex)%Z else d in
  let q := (num / den)%Z in
  let r := (num mod den)%Z in
  let loc := if (r =? 0)%Z then loc_Exact
             else loc_Inexact (2 * r ?= den)%Z in
  binary_round_aux 53 1024 neg q ex loc.

(** The binary64 number nearest to [(-1)^neg * coeff * 10^exp].  Values
    with more than 310 integer digits are beyond every finite binary64
    number; values below [10^-330] round to zero. *)
Definition round_decimal (neg : bool) (coeff : N) (exp : Z) : spec_float :=
  match coeff with
  | N0 => S754_zero neg
  | Npos _ =>
      let adj := (exp + ndigits coeff)%Z in
      if (310 <? adj)%Z then S754_infinity neg
      else if (adj <? -330)%Z then S754_zero neg
      else if (0 <=? exp)%Z
           then round_ratio neg (Z.of_N coeff * 10 ^ exp) 1
           else round_ratio neg (Z.of_N coeff) (10 ^ (- exp))
  end.

(** [float(d)]: the nearest binary64 number; a signalling NaN is refused. *)
Definition float_of_decimal (d : decimal) : result float :=
  match d with
  | NaN _ true _ => Raise ValueError
  | NaN _ false _ => Ok nan
  | Infinity neg => Ok (if neg then neg_infinity else infinity)
  | Finite neg coeff exp => Ok (SF2Prim (round_decimal neg coeff exp))
  end.

End PyDecimal.

(** ** [_parse_amount] *)

(** [try: body  except (InvalidOperation, ValueError): handler] *)
Definition try_except {A : Type} (body : result A) (handler : result A)
  : result A :=
  match body with
  | Raise InvalidOperation | Raise ValueError => handler
  | other => other
  end.

Definition _parse_amount (value : string) : result (option float) :=
  let value := strip value in
  if negb (truthy value) then Ok None
  else
    let value := replace "," "" value in
    try_except
      (d <- PyDecimal.Decimal value ;;
       f <- PyDecimal.float_of_decimal d ;;
       Ok (Some f))
      (Ok None).

(** ** Words, lines and records *)

(** A word of [extract_words]: the keys of the dict the program reads. *)
Record word : Type := mkWord { text : string; x0 : Q; top : Q }.

(** A line of the grouping loop: [{"top": ..., "words": [...]}]. *)
Record line : Type := mkLine { line_top : Q; words : list word }.

(** A row with the eight columns; the three amount columns hold text while
    the rows are collected and parsed amounts in the returned table. *)
Record record (A : Type) : Type := mkRecord {
  Date : string;
  Time : string;
  Description : string;
  Withdrawal : A;
  Deposit : A;
  Balance : A;
  Branch : string;
  Page : Z
}.

Arguments mkRecord {A}.
Arguments Date {A}.
Arguments Time {A}.
Arguments Description {A}.
Arguments Withdrawal {A}.
Arguments Deposit {A}.
Arguments Balance {A}.
Arguments Branch {A}.
Arguments Page {A}.

Definition set_Time {A} (r : record A) (v : string) : record A :=
  mkRecord (Date r) v (Description r) (Withdrawal r) (Deposit r) (Balance r)
           (Branch r) (Page r).

Definition set_Description {A} (r : record A) (v : string) : record A :=
  mkRecord (Date r) (Time r) v (Withdrawal r) (Deposit r) (Balance r)
           (Branch r) (Page r).

Definition set_Withdrawal {A} (r : record A) (v : A) : record A :=
  mkRecord (Date r) (Time r) (Description r) v (Deposit r) (Balance r)
           (Branch r) (Page r).

Definition set_Deposit {A} (r : record A) (v : A) : record A :=
  mkRecord (Date r) (Time r) (Description r) (Withdrawal r) v (Balance r)
           (Branch r) (Page r).

Definition set_Balance {A} (r : record A) (v : A) : record A :=
  mkRecord (Date r) (Time r) (Description r) (Withdrawal r) (Deposit r) v
           (Branch r) (Page r).

Definition set_Branch {A} (r : record A) (v : string) : record A :=
  mkRecord (Date r) (Time r) (Description r) (Withdrawal r) (Deposit r)
           (Balance r) v (Page r).

(** ** Constants *)

(** [DATE_RE.fullmatch(s)] for [\d{2}/\d{2}/\d{2}]. *)
Definition DATE_RE (s : string) : bool :=
  match s with
  | String d1 (String d2 (String s1 (String d3 (String d4
      (String s2 (String d5 (String d6 EmptyString))))))) =>
      isdigit d1 && isdigit d2 && Ascii.eqb s1 "/"
      && isdigit d3 && isdigit d4 && Ascii.eqb s2 "/"
      && isdigit d5 && isdigit d6
  | _ => false
  end.

(** [TIME_RE.fullmatch(s)] for [\d{2}:\d{2}]. *)
Definition TIME_RE (s : string) : bool :=
  match s with
  | String d1 (String d2 (String s1 (String d3 (String d4 EmptyString)))) =>
      isdigit d1 && isdigit d2 && Ascii.eqb s1 ":"
      && isdigit d3 && isdigit d4
  | _ => false
  end.

Definition WITHDRAWAL_RANGE : Q * Q := (340, 420)%Q.
Definition DEPOSIT_RANGE : Q * Q := (420, 470)%Q.
Definition BALANCE_RANGE : Q * Q := (470, 540)%Q.
Definition BRANCH_MIN_X : Q := 530%Q.

(** The tolerance of the grouping loop. *)
Definition Y_TOLERANCE : Q := 1.5%Q.

(** ** The binary64 difference of two coordinates *)

(** The binary64 number nearest to a rational, ties to even. *)
Definition binary64_of_Q (q : Q) : spec_float :=
  match Qnum q with
  | Z0 => S754_zero false
  | Zpos n => PyDecimal.round_ratio false (Zpos n) (Zpos (Qden q))
  | Zneg n => PyDecimal.round_ratio true (Zpos n) (Zpos (Qden q))
  end.

(** [a - b] on two floats: the exact difference, rounded once. *)
Definition float_sub (a b : Q) : spec_float := binary64_of_Q (a - b).

(** [abs(a - b) > 1.5], the test of line 49. *)
Definition beyond_tolerance (a b : Q) : bool :=
  SFltb (binary64_of_Q Y_TOLERANCE) (SFabs (float_sub a b)).

(** ** Comparisons and sorting *)

Definition Qltb (a b : Q) : bool :=
  match (a ?= b)%Q with Lt => true | _ => false end.

Definition Qleb (a b : Q) : bool :=
  match (a ?= b)%Q with Gt => false | _ => true end.

(** [<] on the tuples [(top, x0)]: the first components decide unless they
    are equal. *)
Definition pair_ltb (a b : Q * Q) : bool :=
  if Qeq_bool (fst a) (fst b) then Qltb (snd a) (snd b)
  else Qltb (fst a) (fst b).

Section Sorting.

Context {A K : Type}.
Variable ltb : K -> K -> bool.
Variable key : A -> K.

(** Put [a] in front of the first element whose key is not below its
    own: [a] stays ahead of the elements it compares equal to. *)
Fixpoint insert_sorted (a : A) (l : list A) : list A :=
  match l with
  | [] => [a]
  | b :: l' =>
      if ltb (key b) (key a) then b :: insert_sorted a l'
      else a :: l
  end.

(** [sorted(l, key=key)]: the stable sort. *)
Definition sorted (l : list A) : list A := fold_right insert_sorted [] l.

End Sorting.

(** ** Grouping the sorted words into lines (source lines 46-52) *)

(** One turn of the loop: [lines[-1]] is the head of [rev lines]. *)
Definition group_step (lines : list line) (w : word) : list line :=
  match rev lines with
  | [] => (lines ++ [mkLine (top w) [w]])%list
  | l :: before =>
      if beyond_tolerance (top w) (line_top l)
      then (lines ++ [mkLine (top w) [w]])%list
      else (rev before ++ [mkLine (line_top l) (words l ++ [w])])%list
  end.

Definition group_lines (ws : list word) : list line :=
  fold_left group_step ws [].

(** *** The single-link grouping in the specification's words *)

(** A word joins the line being built when the difference between its
    [top] and the line's reference, the [top] of the line's first word, is
    at most the tolerance in absolute value: [abs(top - ref) <= 1.5], the
    difference being the binary64 one; the reference never moves. *)
Definition joins (ref : Q) (w : word) : bool :=
  SFleb (SFabs (float_sub (top w) ref)) (binary64_of_Q Y_TOLERANCE).

(** [acc] holds the members of the line being built, latest first. *)
Fixpoint single_link_from (ref : Q) (acc : list word) (ws : list word)
  : list line :=
  match ws with
  | [] => [mkLine ref (rev acc)]
  | w :: ws' =>
      if joins ref w then single_link_from ref (w :: acc) ws'
      else mkLine ref (rev acc) :: single_link_from (top w) [w] ws'
  end.

Definition single_link (ws : list word) : list line :=
  match ws with
  | [] => []
  | w :: ws' => single_link_from (top w) [w] ws'
  end.

(** ** Column bands (source lines 79-85 and 124-130) *)

Definition in_withdrawal (x : Q) : bool :=
  Qleb (fst WITHDRAWAL_RANGE) x && Qleb x (snd WITHDRAWAL_RANGE).

Definition in_deposit (x : Q) : bool :=
  Qltb (fst DEPOSIT_RANGE) x && Qleb x (snd DEPOSIT_RANGE).

Definition in_balance (x : Q) : bool :=
  Qltb (fst BALANCE_RANGE) x && Qleb x (snd BALANCE_RANGE).

Definition in_branch (x : Q) : bool := Qltb BRANCH_MIN_X x.

(** ** The scan of the lines of a page (source lines 54-141) *)

(** The dict a Date line or a Total line starts from. *)
Definition blank_record (date : string) (page_idx : Z) : record string :=
  mkRecord date "" "" "" "" "" "" page_idx.

(** One word after the date of an opening line (lines 76-88): the open
    record and [description_parts]. *)
Definition date_word (st : record string * list string) (w : word)
  : record string * list string :=
  let (current, description_parts) := st in
  if in_withdrawal (x0 w) then
    (set_Withdrawal current (text w), description_parts)
  else if in_deposit (x0 w) then
    (set_Deposit current (text w), description_parts)
  else if in_balance (x0 w) then
    (set_Balance current (text w), description_parts)
  else if in_branch (x0 w) then
    (set_Branch current (strip (Branch current ++ " " ++ text w)),
     description_parts)
  else (current, (description_parts ++ [text w])%list).

(** One word of a continuation line (lines 121-133): the open record and
    [extra_desc]. *)
Definition extra_word (st : record string * list string) (w : word)
  : record string * list string :=
  let (current, extra_desc) := st in
  if in_withdrawal (x0 w) && negb (truthy (Withdrawal current)) then
    (set_Withdrawal current (text w), extra_desc)
  else if in_deposit (x0 w) && negb (truthy (Deposit current)) then
    (set_Deposit current (text w), extra_desc)
  else if in_balance (x0 w) && negb (truthy (Balance current)) then
    (set_Balance current (text w), extra_desc)
  else if in_branch (x0 w) then
    (set_Branch current (strip (Branch current ++ " " ++ text w)),
     extra_desc)
  else (current, (extra_desc ++ [text w])%list).

(** The opening line of a transaction (lines 65-89). *)
Definition open_transaction (first_text : string) (page_idx : Z)
    (line_words : list word) : record string :=
  let (current, description_parts) :=
    fold_left date_word (tl line_words)
              (blank_record first_text page_idx, []) in
  set_Description current
    (_normalise_whitespace (join " " description_parts)).

(** The record of a Total line (lines 94-113). *)
Definition summary_record (texts : list string) (page_idx : Z)
  : record string :=
  let summary := blank_record "" page_idx in
  let plain :=
    set_Description summary (_normalise_whitespace (join " " texts)) in
  match texts with
  | _ :: kind :: count :: amount :: _ =>
      if String.eqb kind "Withdrawal" || String.eqb kind "Deposit" then
        let summary :=
          set_Description summary
            ("Total " ++ kind ++ " (count: " ++ count ++ ")") in
        if String.eqb kind "Withdrawal"
        then set_Withdrawal summary amount
        else set_Deposit summary amount
      else plain
  | _ => plain
  end.

(** A continuation line merged into the open record (lines 116-139). *)
Definition continue_record (current : record string) (first_text : string)
    (line_words : list word) : record string :=
  let is_time := TIME_RE first_text in
  let current := if is_time then set_Time current first_text else current in
  let extra_words := if is_time then tl line_words else line_words in
  let (current, extra_desc) :=
    fold_left extra_word extra_words (current, []) in
  match extra_desc with
  | [] => current
  | _ =>
      let description := Description current in
      let description :=
        if truthy description then description ++ " " else description in
      let description := description ++ join " " extra_desc in
      set_Description current (_normalise_whitespace description)
  end.

(** The state of the scan: [current] and [records]. *)
Definition scan_state : Type :=
  (option (record string) * list (record string))%type.

(** [records.append(current)] under [if current:]. *)
Definition close_current (st : scan_state) : list (record string) :=
  match fst st with
  | Some current => (snd st ++ [current])%list
  | None => snd st
  end.

(** The body of [for line in lines] (lines 56-139). *)
Definition scan_line (page_idx : Z) (st : scan_state) (l : line)
  : scan_state :=
  let line_words := sorted Qltb x0 (words l) in
  let texts := map text line_words in
  match texts with
  | [] => st
  | first_text :: _ =>
      if DATE_RE first_text then
        (Some (open_transaction first_text page_idx line_words),
         close_current st)
      else if String.eqb first_text "Total" then
        (None, (close_current st ++ [summary_record texts page_idx])%list)
      else
        match fst st with
        | Some current =>
            (Some (continue_record current first_text line_words), snd st)
        | None => st
        end
  end.

Definition scan_lines (page_idx : Z) (records : list (record string))
    (lines : list line) : list (record string) :=
  close_current (fold_left (scan_line page_idx) lines (None, records)).

(** The lines of a page: its words sorted by [(top, x0)] (line 44), then
    grouped (lines 47-52). *)
Definition page_lines (page_words : list word) : list line :=
  group_lines (sorted pair_ltb (fun w => (top w, x0 w)) page_words).

(** The body of [for page_idx, page in enumerate(pdf.pages, start=1)], from
    the words [extract_words] returned for the page (lines 44-141). *)
Definition extract_page (page_idx : Z) (records : list (record string))
    (page_words : list word) : list (record string) :=
  scan_lines page_idx records (page_lines page_words).

Fixpoint extract_pages (page_idx : Z) (records : list (record string))
    (pages : list (list word)) : list (record string) :=
  match pages with
  | [] => records
  | p :: pages' =>
      extract_pages (page_idx + 1) (extract_page page_idx records p) pages'
  end.

(** ** The returned table (source lines 143-161) *)

(** The rows with the three amount columns replaced by the parsed ones. *)
Fixpoint with_amounts (records : list (record string))
    (ws ds bs : list (option float)) : list (record (option float)) :=
  match records, ws, ds, bs with
  | r :: records', w :: ws', d :: ds', b :: bs' =>
      mkRecord (Date r) (Time r) (Description r) w d b (Branch r) (Page r)
      :: with_amounts records' ws' ds' bs'
  | _, _, _, _ => []
  end.

(** A cell of an amount column.  [Series.apply] gathers what the function
    returns in one column, where a [None] among floats is kept as NaN: a
    cell is either missing or a number, and the NaN that [_parse_amount]
    returns for a text such as "NaN" is a missing cell like the others.
    [None] is the missing cell. *)
Definition amount_cell (v : option float) : option float :=
  match v with
  | Some f => if PrimFloat.is_nan f then None else Some f
  | None => None
  end.

(** [df[column] = df[column].fillna("").apply(...)] for the three amount
    columns in turn; every cell is a [str]. *)
Definition convert_amounts (records : list (record string))
  : result (list (record (option float))) :=
  ws <- mapM _parse_amount (map Withdrawal records) ;;
  ds <- mapM _parse_amount (map Deposit records) ;;
  bs <- mapM _parse_amount (map Balance records) ;;
  Ok (with_amounts records (map amount_cell ws) (map amount_cell ds)
                   (map amount_cell bs)).

(** [extract_statement_records], from the words of each page of the
    document in order. *)
Definition extract_statement_records (pages : list (list word))
  : result (list (record (option float))) :=
  convert_amounts (extract_pages 1 [] pages).

(** ** Auxiliary predicates of the statements *)

(** No character of the string is a separator. *)
Fixpoint no_sep (s : string) : bool :=
  match s with
  | EmptyString => true
  | String c s' => negb (is_sep c) && no_sep s'
  end.

(** The characters of the string that are not separators, in order. *)
Fixpoint without_seps (s : string) : string :=
  match s with
  | EmptyString => EmptyString
  | String c s' => if is_sep c then without_seps s'
                   else String c (without_seps s')
  end.

(** A word: not empty, and free of separators. *)
Definition is_word (w : string) : bool := truthy w && no_sep w.

Definition starts_space (s : string) : bool :=
  match s with
  | EmptyString => false
  | String c _ => isspace c
  end.

(** The text the scan reads first on a line: [texts[0]] after the words of
    the line are sorted by [x0]; [None] for a line without words. *)
Definition first_text (l : line) : option string :=
  hd_error (map text (sorted Qltb x0 (words l))).

(** A line that opens a transaction. *)
Definition date_led (l : line) : bool :=
  match first_text l with
  | Some t => DATE_RE t
  | None => false
  end.

(** A line that yields a summary. *)
Definition total_led (l : line) : bool :=
  match first_text l with
  | Some t => negb (DATE_RE t) && String.eqb t "Total"
  | None => false
  end.

(** A line of the third kind: a continuation when a record is open. *)
Definition is_continuation (l : line) : bool :=
  negb (date_led l) && negb (total_led l).

(** A record with a date, as opposed to a summary. *)
Definition is_transaction {A : Type} (r : record A) : bool :=
  truthy (Date r).

(** The first word of a line gives the line its reference. *)
Definition anchored (l : line) : Prop :=
  exists w rest, words l = w :: rest /\ line_top l = top w.

Definition count_transactions {A : Type} (rs : list (record A)) : nat :=
  length (filter is_transaction rs).

(** The number of records the scan still has to emit for [current]. *)
Definition pending {A : Type} (current : option A) : nat :=
  match current with
  | Some _ => 1
  | None => 0
  end.

(** A line whose first text is a time. *)
Definition time_led (l : line) : bool :=
  match first_text l with
  | Some t => TIME_RE t
  | None => false
  end.

(** ** The scenario lines *)

(** The opening line [01/02/23  Grocery Store  150.00], the amount at 380
    in the Withdrawal band. *)
Definition grocery_line : line :=
  mkLine 300 [mkWord "01/02/23" 40 300; mkWord "Grocery" 100 300;
              mkWord "Store" 140 300; mkWord "150.00" 380 300].

(** The continuation line [Ref: 999] at 100. *)
Definition ref_line : line :=
  mkLine 312 [mkWord "Ref:" 100 312; mkWord "999" 125 312].

(** ** Further predicates of the statements *)

(** A cell of the table against the text it comes from: [_parse_amount]
    returns for the text, and the cell is missing when it returns [None]
    or a NaN and holds the float it returns otherwise. *)
Definition cell_of (t : string) (cell : option float) : Prop :=
  exists v, _parse_amount t = Ok v /\ cell = amount_cell v.

(** A row of the returned table against the record it comes from: the text
    columns and the page are the record's, and each amount is the cell of
    the record's text. *)
Definition row_of (r : record string) (row : record (option float)) : Prop :=
  Date row = Date r /\ Time row = Time r /\ Description row = Description r
  /\ Branch row = Branch r /\ Page row = Page r
  /\ cell_of (Withdrawal r) (Withdrawal row)
  /\ cell_of (Deposit r) (Deposit row)
  /\ cell_of (Balance r) (Balance row).


(** [enumerate(pages, start=i)] *)
Fixpoint enumerate (i : Z) (pages : list (list word))
  : list (Z * list word) :=
  match pages with
  | [] => []
  | p :: pages' => (i, p) :: enumerate (i + 1) pages'
  end.

(** The words of a line lie at or below the reference of the line and
    within the tolerance of it, as the grouping loop measures it. *)
Definition banded (l : line) : Prop :=
  Forall (fun w => (line_top l <= top w)%Q /\ joins (line_top l) w = true)
         (words l).

(** The second line starts at or below the first, and beyond the tolerance
    of its reference, as the grouping loop measures it. *)
Definition separated (l1 l2 : line) : Prop :=
  (line_top l1 <= line_top l2)%Q
  /\ beyond_tolerance (line_top l2) (line_top l1) = true.

(** The first text with a truth value, the empty text when there is
    none. *)
Fixpoint first_truthy (ts : list string) : string :=
  match ts with
  | [] => EmptyString
  | t :: ts' => if truthy t then t else first_truthy ts'
  end.

(** The state of the word loop of a continuation line when the loop ends
    (lines 116-133): the record and [extra_desc]. *)
Definition extra_loop (current : record string) (first_text : string)
    (line_words : list word) : record string * list string :=
  fold_left extra_word
    (if TIME_RE first_text then tl line_words else line_words)
    ((if TIME_RE first_text then set_Time current first_text else current),
     []).

(** ** The command line (source lines 164-181) *)

(** The namespace [parse_args] returns. *)
Record args : Type := mkArgs {
  pdf_path : string;
  password : option string;
  csv : option string;
  excel : option string;
  sheet_name : string
}.

(** Truth value of an optional text: [None] and the empty text are false. *)
Definition given (o : option string) : bool :=
  match o with
  | Some s => truthy s
  | None => false
  end.

Definition path_of (o : option string) : string :=
  match o with
  | Some s => s
  | None => EmptyString
  end.

Section Main.

(** The collaborators: the exceptions they raise, the files they write,
    [parser.parse_args()], which reads the command line and either exits
    with a status (2 on arguments it rejects, 0 after printing the help) or
    returns the namespace, the words of the pages of a document (or the
    exception opening or reading it raises), and the two writers, which
    return the files after the call and the exception they raised, if
    any. *)
Variable E : Type.
Variable files : Type.
Variable parse_args : list string -> Z + args.
Variable open_words : string -> option string -> E + list (list word).
Variable to_csv :
  list (record (option float)) -> string -> files -> files * option E.
Variable to_excel :
  list (record (option float)) -> string -> string -> files
  -> files * option E.

(** How a run ends, with the files it leaves. *)
Inductive outcome : Type :=
| Exit (status : Z) (fs : files)          (* [SystemExit] of the parser *)
| External (e : E) (fs : files)           (* an exception of a collaborator *)
| Internal (e : exn) (fs : files)         (* an exception of the extraction *)
| Returned (fs : files).

Definition main (argv : list string) (fs : files) : outcome :=
  match parse_args argv with
  | inl status => Exit status fs
  | inr a =>
      if negb (given (csv a)) && negb (given (excel a)) then Exit 2 fs
      else
        match open_words (pdf_path a) (password a) with
        | inl e => External e fs
        | inr pages =>
            match extract_statement_records pages with
            | Raise e => Internal e fs
            | Ok df =>
                let (fs1, e1) :=
                  if given (csv a) then to_csv df (path_of (csv a)) fs
                  else (fs, None) in
                match e1 with
                | Some e => External e fs1
                | None =>
                    let (fs2, e2) :=
                      if given (excel a)
                      then to_excel df (path_of (excel a)) (sheet_name a) fs1
                      else (fs1, None) in
                    match e2 with
                    | Some e => External e fs2
                    | None => Returned fs2
                    end
                end
            end
        end
  end.

End Main.

(** A position that is in no amount band and not beyond the branch
    threshold: the text there belongs to the description. *)
Definition in_description (x : Q) : bool :=
  negb (in_withdrawal x) && negb (in_deposit x) && negb (in_balance x)
  && negb (in_branch x).

Arguments Exit {E files}.
Arguments External {E files}.
Arguments Internal {E files}.
Arguments Returned {E files}.
Arguments main {E files}.

(** What a line puts in the Date column: its first text when that is a
    date, an empty entry when it is "Total", nothing otherwise. *)
Definition line_date (l : line) : list string :=
  match first_text l with
  | Some t =>
      if DATE_RE t then [t]
      else if String.eqb t "Total" then [EmptyString] else []
  | None => []
  end.

(** * Properties *)

(** ** Whitespace normalisation *)

Section Normalise.

(** The text after the first two steps of [_normalise_whitespace]. *)
Let collapsed (b : bool) (s : string) : string :=
  sub_spaces_from b (replace "~" " " s).

Lemma collapsed_cons (b : bool) (c : ascii) (s : string) :
  collapsed b (String c s) =
  if is_sep c
  then (if b then collapsed true s else String " " (collapsed true s))
  else String c (collapsed false s).
Proof.
  unfold collapsed, is_sep. simpl.
  destruct (Ascii.eqb c "~") eqn:Ht.
  - rewrite orb_true_r. reflexivity.
  - rewrite orb_false_r. reflexivity.
Qed.

Lemma not_sep_not_space (c : ascii) : is_sep c = false -> isspace c = false.
Proof. unfold is_sep. intros H. apply orb_false_elim in H. tauto. Qed.

Lemma rstrip_cons_word (c : ascii) (s : string) :
  isspace c = false -> rstrip (String c s) = String c (rstrip s).
Proof. intros H. simpl. rewrite H. destruct (rstrip s); reflexivity. Qed.

Lemma rstrip_cons_space (c : ascii) (s : string) :
  isspace c = true ->
  rstrip (String c s) =
  if truthy (rstrip s) then String c (rstrip s) else EmptyString.
Proof. intros H. simpl. rewrite H. destruct (rstrip s); reflexivity. Qed.

Lemma words_of_are_words (s : string) :
  Forall (fun w => is_word w = true) (words_of s).
Proof.
  induction s as [|c s IH]; simpl; [constructor|].
  destruct (is_sep c) eqn:Hc; [exact IH|].
  assert (Hone : is_word (String c EmptyString) = true)
    by (unfold is_word; simpl; rewrite Hc; reflexivity).
  destruct (starts_word s).
  - destruct (words_of s) as [|w ws]; [constructor; [exact Hone|constructor]|].
    inversion IH as [|w' ws' Hw Hws]; subst. constructor; [|exact Hws].
    unfold is_word in *. simpl. rewrite Hc. simpl.
    apply andb_true_iff in Hw. tauto.
  - constructor; assumption.
Qed.

Lemma join_words_truthy (w : string) (ws : list string) :
  is_word w = true -> truthy (join " " (w :: ws)) = true.
Proof.
  unfold is_word. intros H. apply andb_true_iff in H. destruct H as [H _].
  destruct w; [discriminate|]. destruct ws; reflexivity.
Qed.

Lemma join_cons_char (c : ascii) (w : string) (ws : list string) :
  join " " (String c w :: ws) = String c (join " " (w :: ws)).
Proof. destruct ws; reflexivity. Qed.

Lemma words_of_cons (c : ascii) (s : string) :
  words_of (String c s) =
  if is_sep c then words_of s
  else if starts_word s
       then match words_of s with
            | w :: ws => String c w :: ws
            | [] => [String c EmptyString]
            end
       else String c EmptyString :: words_of s.
Proof. reflexivity. Qed.

(** What [rstrip] leaves of the collapsed text, in terms of the words. *)
Lemma rstrip_collapsed (s : string) :
  rstrip (collapsed true s) = normalise_spec s
  /\ rstrip (collapsed false s) =
     if negb (starts_word s) && truthy (normalise_spec s)
     then String " " (normalise_spec s) else normalise_spec s.
Proof.
  induction s as [|c s [IHt IHf]]; [split; reflexivity|].
  rewrite !collapsed_cons. unfold normalise_spec in *.
  rewrite words_of_cons.
  change (starts_word (String c s)) with (negb (is_sep c)).
  destruct (is_sep c) eqn:Hc; cbn [negb andb].
  - split; [exact IHt|].
    rewrite rstrip_cons_space by reflexivity. rewrite IHt.
    destruct (join " " (words_of s)); reflexivity.
  - rewrite !rstrip_cons_word by (apply not_sep_not_space; exact Hc).
    rewrite IHf.
    assert (Hgoal :
      String c (if negb (starts_word s) && truthy (join " " (words_of s))
                then String " " (join " " (words_of s))
                else join " " (words_of s)) =
      join " " (if starts_word s
                then match words_of s with
                     | w :: ws => String c w :: ws
                     | [] => [String c EmptyString]
                     end
                else String c EmptyString :: words_of s)).
    { destruct (starts_word s); cbn [negb andb].
      - destruct (words_of s) as [|w ws]; [reflexivity|].
        symmetry. apply join_cons_char.
      - pose proof (words_of_are_words s) as Hw.
        destruct (words_of s) as [|w ws]; [reflexivity|].
        inversion Hw as [|w' ws' Hw1 _]; subst.
        rewrite (join_words_truthy w ws Hw1). reflexivity. }
    split; exact Hgoal.
Qed.

Lemma normalise_is_spec (s : string) :
  _normalise_whitespace s = normalise_spec s.
Proof.
  unfold _normalise_whitespace, sub_spaces, strip.
  change (sub_spaces_from false (replace "~" " " s)) with (collapsed false s).
  generalize false. induction s as [|c s IH]; intros b; [reflexivity|].
  rewrite collapsed_cons. destruct (is_sep c) eqn:Hc.
  - assert (Hl : forall x, lstrip (String " " x) = lstrip x) by reflexivity.
    unfold normalise_spec. rewrite words_of_cons, Hc.
    destruct b; [|rewrite Hl]; apply IH.
  - destruct (rstrip_collapsed (String c s)) as [_ Hf].
    rewrite collapsed_cons, Hc in Hf.
    cbn [lstrip]. rewrite (not_sep_not_space c Hc).
    rewrite Hf. cbn [starts_word]. rewrite Hc. reflexivity.
Qed.

Lemma append_empty_r (s : string) : s ++ EmptyString = s.
Proof. induction s as [|c s IH]; simpl; [|rewrite IH]; reflexivity. Qed.

(** A word in front of a text that does not continue it is the first of
    the words of the whole. *)
Lemma words_of_app_word (w rest : string) :
  is_word w = true -> starts_word rest = false ->
  words_of (w ++ rest) = w :: words_of rest.
Proof.
  unfold is_word. intros Hw Hrest. apply andb_true_iff in Hw.
  destruct Hw as [Hne Hns]. induction w as [|c w IH]; [discriminate|].
  simpl in Hns. apply andb_true_iff in Hns. destruct Hns as [Hc Hns].
  apply negb_true_iff in Hc.
  change (String c w ++ rest) with (String c (w ++ rest)).
  rewrite words_of_cons, Hc. destruct w as [|c' w].
  - simpl. rewrite Hrest. reflexivity.
  - rewrite IH by (reflexivity || exact Hns).
    simpl in Hns. apply andb_true_iff in Hns. destruct Hns as [Hc' _].
    simpl. rewrite Hc'. reflexivity.
Qed.

Lemma words_of_join (ws : list string) :
  Forall (fun w => is_word w = true) ws ->
  words_of (join " " ws) = ws.
Proof.
  induction 1 as [|w ws Hw Hws IH]; [reflexivity|].
  destruct ws as [|w2 ws].
  - simpl. rewrite <- (append_empty_r w) at 1.
    rewrite words_of_app_word; [reflexivity|exact Hw|reflexivity].
  - change (join " " (w :: w2 :: ws))
      with (w ++ String " " (join " " (w2 :: ws))).
    rewrite words_of_app_word; [|exact Hw|reflexivity].
    rewrite words_of_cons. simpl is_sep. rewrite IH. reflexivity.
Qed.

Lemma normalise_spec_idempotent (s : string) :
  normalise_spec (normalise_spec s) = normalise_spec s.
Proof.
  unfold normalise_spec. rewrite words_of_join; [reflexivity|].
  apply words_of_are_words.
Qed.

(** The words hold the characters of the text that are not separators. *)
Lemma words_of_characters (s : string) :
  join EmptyString (words_of s) = without_seps s.
Proof.
  induction s as [|c s IH]; [reflexivity|].
  rewrite words_of_cons. simpl without_seps.
  destruct (is_sep c); [exact IH|]. rewrite <- IH.
  assert (Hcons : forall w ws,
             join EmptyString (String c w :: ws)
             = String c (join EmptyString (w :: ws)))
    by (intros w [|w2 ws]; reflexivity).
  destruct (starts_word s).
  - destruct (words_of s) as [|w ws]; [reflexivity|]. apply Hcons.
  - destruct (words_of s) as [|w ws]; reflexivity.
Qed.

Lemma lstrip_no_leading_space (s : string) : starts_space (lstrip s) = false.
Proof.
  induction s as [|c s IH]; [reflexivity|]. simpl.
  destruct (isspace c) eqn:Hc; [exact IH|]. simpl. exact Hc.
Qed.

Lemma rstrip_keeps_start (s : string) :
  starts_space s = false -> starts_space (rstrip s) = false.
Proof.
  destruct s as [|c s]; [reflexivity|]. simpl. intros Hc. rewrite Hc.
  destruct (rstrip s); exact Hc.
Qed.

Lemma lstrip_fixed (s : string) : starts_space s = false -> lstrip s = s.
Proof. destruct s as [|c s]; simpl; [|intros ->]; reflexivity. Qed.

Lemma rstrip_idempotent (s : string) : rstrip (rstrip s) = rstrip s.
Proof.
  induction s as [|c s IH]; [reflexivity|]. simpl.
  destruct (rstrip s) as [|d r] eqn:Hr.
  - destruct (isspace c) eqn:Hc; [reflexivity|]. simpl. rewrite Hc.
    reflexivity.
  - change (rstrip (String c (String d r)))
      with (match rstrip (String d r) with
            | EmptyString =>
                if isspace c then EmptyString else String c EmptyString
            | r' => String c r'
            end).
    rewrite IH. reflexivity.
Qed.

End Normalise.

(** C8. [_normalise_whitespace] is idempotent; its result is the words of
    the text (the maximal runs of characters that are neither tildes nor
    whitespace: they are not empty, hold no separator, and together hold
    the other characters of the text in order) with one space between two
    of them, so that every run of tildes and whitespace inside the text
    becomes a single space; and the result neither starts nor ends with
    whitespace. *)
Theorem normalise_whitespace_idempotent (s : string) :
  _normalise_whitespace (_normalise_whitespace s) = _normalise_whitespace s
  /\ _normalise_whitespace s = join " " (words_of s)
  /\ Forall (fun w => is_word w = true) (words_of s)
  /\ join EmptyString (words_of s) = without_seps s
  /\ lstrip (_normalise_whitespace s) = _normalise_whitespace s
  /\ rstrip (_normalise_whitespace s) = _normalise_whitespace s.
Proof.
  split; [|split; [|split; [|split; [|split]]]].
  - rewrite !normalise_is_spec. apply normalise_spec_idempotent.
  - apply normalise_is_spec.
  - apply words_of_are_words.
  - apply words_of_characters.
  - unfold _normalise_whitespace, strip. apply lstrip_fixed.
    apply rstrip_keeps_start. apply lstrip_no_leading_space.
  - unfold _normalise_whitespace, strip. apply rstrip_idempotent.
Qed.

Example normalise_whitespace_sample :
  _normalise_whitespace "  POS~~PURCHASE   SHOP~ " = "POS PURCHASE SHOP".
Proof. reflexivity. Qed.

(** ** Grouping into lines *)

Local Open Scope list_scope.

Section Grouping.

Lemma Qltb_negb_Qleb (a b : Q) : Qltb a b = negb (Qleb b a).
Proof.
  unfold Qltb, Qleb. rewrite <- (Qcompare_antisym a b).
  destruct (a ?= b)%Q; reflexivity.
Qed.

(** *** Rounding never gives a NaN *)

Lemma shr_1_nonneg (mrs : shr_record) :
  (0 <= shr_m mrs)%Z -> (0 <= shr_m (shr_1 mrs))%Z.
Proof.
  destruct mrs as [m r s]. simpl. intros Hm.
  destruct m as [|p|p]; [simpl; lia| |lia].
  destruct p; simpl; lia.
Qed.

Lemma iter_pos_keeps {A : Type} (P : A -> Prop) (f : A -> A) :
  (forall x, P x -> P (f x)) ->
  forall (p : positive) (x : A), P x -> P (iter_pos f p x).
Proof.
  intros Hf. induction p as [p IH|p IH|]; intros x Hx; simpl.
  - apply IH, IH, Hf, Hx.
  - apply IH, IH, Hx.
  - apply Hf, Hx.
Qed.

Lemma shr_fexp_nonneg (m e : Z) (l : location) :
  (0 <= m)%Z -> (0 <= shr_m (fst (shr_fexp 53 1024 m e l)))%Z.
Proof.
  intros Hm. unfold shr_fexp, shr.
  assert (H0 : (0 <= shr_m (shr_record_of_loc m l))%Z)
    by (destruct l as [|[| |]]; exact Hm).
  destruct (fexp 53 1024 (Zdigits2 m + e) - e)%Z; simpl; try exact H0.
  apply (iter_pos_keeps (fun mrs => (0 <= shr_m mrs)%Z) shr_1 shr_1_nonneg).
  exact H0.
Qed.

Lemma round_nearest_even_nonneg (m : Z) (l : location) :
  (0 <= m)%Z -> (0 <= round_nearest_even m l)%Z.
Proof.
  intros Hm. unfold round_nearest_even.
  destruct l as [|[| |]]; try lia. destruct (Z.even m); lia.
Qed.

Lemma binary_round_aux_not_nan (s : bool) (m e : Z) (l : location) :
  (0 <= m)%Z -> binary_round_aux 53 1024 s m e l <> S754_nan.
Proof.
  intros Hm. unfold binary_round_aux.
  pose proof (shr_fexp_nonneg m e l Hm) as H1.
  destruct (shr_fexp 53 1024 m e l) as [mrs' e']. simpl in H1.
  pose proof (shr_fexp_nonneg
                (round_nearest_even (shr_m mrs') (loc_of_shr_record mrs'))
                e' loc_Exact (round_nearest_even_nonneg _ _ H1)) as H2.
  destruct (shr_fexp 53 1024 _ e' loc_Exact) as [mrs'' e'']. simpl in H2.
  destruct (shr_m mrs'') as [|p|p]; [discriminate| |lia].
  destruct (e'' <=? 1024 - 53)%Z; discriminate.
Qed.

Lemma round_ratio_not_nan (s : bool) (n d : positive) :
  PyDecimal.round_ratio s (Zpos n) (Zpos d) <> S754_nan.
Proof.
  unfold PyDecimal.round_ratio. apply binary_round_aux_not_nan.
  apply Z.div_pos.
  - destruct (0 <=? _)%Z; [lia|]. apply Z.mul_nonneg_nonneg; [lia|].
    apply Z.pow_nonneg. lia.
  - destruct (0 <=? _)%Z eqn:He; [|lia]. apply Z.leb_le in He.
    apply Z.mul_pos_pos; [lia|]. apply Z.pow_pos_nonneg; lia.
Qed.

Lemma binary64_of_Q_not_nan (q : Q) : binary64_of_Q q <> S754_nan.
Proof.
  unfold binary64_of_Q. destruct (Qnum q); [discriminate| |];
    apply round_ratio_not_nan.
Qed.

(** *** The two comparisons with the tolerance *)

Lemma SFcompare_antisym (x y : spec_float) :
  SFcompare y x = option_map CompOpp (SFcompare x y).
Proof.
  destruct x as [sx|sx| |sx mx ex], y as [sy|sy| |sy my ey]; simpl;
    try reflexivity;
    try (destruct sx; reflexivity); try (destruct sy; reflexivity);
    try (destruct sx, sy; reflexivity).
  destruct sx, sy; simpl; try reflexivity;
    rewrite (Z.compare_antisym ex ey); destruct (ex ?= ey)%Z; simpl;
    try reflexivity;
    rewrite (Pos.compare_cont_antisym mx my Eq); reflexivity.
Qed.

Lemma SFltb_negb_SFleb (x y : spec_float) :
  x <> S754_nan -> y <> S754_nan -> SFltb y x = negb (SFleb x y).
Proof.
  intros Hx Hy. unfold SFltb, SFleb. rewrite (SFcompare_antisym x y).
  destruct (SFcompare x y) as [[| |]|] eqn:Hc; try reflexivity.
  destruct x, y; simpl in Hc; congruence.
Qed.

Lemma SFabs_not_nan (x : spec_float) : x <> S754_nan -> SFabs x <> S754_nan.
Proof. destruct x; simpl; congruence. Qed.

(** The test of the loop is the negation of [joins]. *)
Lemma group_test_joins (ref : Q) (w : word) :
  beyond_tolerance (top w) ref = negb (joins ref w).
Proof.
  unfold beyond_tolerance, joins. apply SFltb_negb_SFleb.
  - apply SFabs_not_nan, binary64_of_Q_not_nan.
  - apply binary64_of_Q_not_nan.
Qed.

Lemma group_step_last (before : list line) (l : line) (w : word) :
  group_step (before ++ [l]) w =
  if joins (line_top l) w
  then before ++ [mkLine (line_top l) (words l ++ [w])]
  else (before ++ [l]) ++ [mkLine (top w) [w]].
Proof.
  unfold group_step. rewrite rev_app_distr. cbn [rev app].
  rewrite group_test_joins, rev_involutive.
  destruct (joins (line_top l) w); reflexivity.
Qed.

(** The loop, started with an open last line, continues the single-link
    grouping of that line. *)
Lemma fold_group_step (ws : list word) :
  forall (before : list line) (ref : Q) (acc : list word),
    fold_left group_step ws (before ++ [mkLine ref (rev acc)]) =
    before ++ single_link_from ref acc ws.
Proof.
  induction ws as [|w ws IH]; intros before ref acc; [reflexivity|].
  simpl fold_left. rewrite group_step_last. simpl line_top. simpl words.
  simpl single_link_from. destruct (joins ref w).
  - apply (IH before ref (w :: acc)).
  - pose proof (IH (before ++ [mkLine ref (rev acc)]) (top w) [w]) as H.
    cbn [rev app] in H. rewrite H, <- app_assoc. reflexivity.
Qed.

Lemma group_lines_single_link (ws : list word) :
  group_lines ws = single_link ws.
Proof.
  destruct ws as [|w ws]; [reflexivity|].
  unfold group_lines. simpl fold_left.
  apply (fold_group_step ws [] (top w) [w]).
Qed.

Lemma single_link_from_anchored (ws : list word) :
  forall (ref : Q) (acc : list word),
    anchored (mkLine ref (rev acc)) ->
    Forall anchored (single_link_from ref acc ws).
Proof.
  induction ws as [|w ws IH]; intros ref acc Hacc; simpl.
  - constructor; [exact Hacc|constructor].
  - destruct (joins ref w).
    + apply IH. destruct Hacc as (v & rest & Hw & Ht). simpl in Hw, Ht.
      exists v, (rest ++ [w]). simpl. rewrite Hw. split; [reflexivity|exact Ht].
    + constructor; [exact Hacc|]. apply IH. exists w, []. split; reflexivity.
Qed.

End Grouping.

(** C7. The grouping loop is the single-link, single-pass grouping: a word
    joins the last line exactly when the absolute difference between its
    [top] and that line's reference, the difference the program computes
    in binary64, is at most 1.5, and starts a new line otherwise; the
    reference of a line is the [top] of its first word and later members
    never change it; and on every word sequence the loop returns the lines
    of the reference algorithm. *)
Theorem group_lines_is_single_link :
  (forall (before : list line) (l : line) (w : word),
      group_step (before ++ [l]) w =
      if SFleb (SFabs (float_sub (top w) (line_top l))) (binary64_of_Q 1.5)
      then before ++ [mkLine (line_top l) (words l ++ [w])]
      else before ++ [l; mkLine (top w) [w]])
  /\ (forall w : word, group_step [] w = [mkLine (top w) [w]])
  /\ (forall ws : list word, Forall anchored (group_lines ws))
  /\ (forall ws : list word, group_lines ws = single_link ws).
Proof.
  split; [|split; [|split]].
  - intros before l w. rewrite group_step_last. unfold joins, Y_TOLERANCE.
    rewrite <- app_assoc. reflexivity.
  - reflexivity.
  - intros ws. rewrite group_lines_single_link.
    destruct ws as [|w ws]; [constructor|].
    apply single_link_from_anchored. exists w, []. split; reflexivity.
  - exact group_lines_single_link.
Qed.

(** Single link is not clustering: 3.0 is within the tolerance of 1.5 but
    not of the reference 0, so it starts a line of its own. *)
Example group_lines_chain :
  group_lines [mkWord "a" 50 0; mkWord "b" 50 1.5; mkWord "c" 50 3] =
  [mkLine 0 [mkWord "a" 50 0; mkWord "b" 50 1.5]; mkLine 3 [mkWord "c" 50 3]].
Proof. reflexivity. Qed.

(** The difference is the rounded one: the binary64 numbers nearest to 0.1
    and 1.6 are 1.5 + 3/2^55 apart, their binary64 difference is 1.5, and
    the second word joins the line of the first. *)
Example group_lines_rounded_difference :
  let t01 := (3602879701896397 # 36028797018963968)%Q in
  let t16 := (7205759403792794 # 4503599627370496)%Q in
  (1.5 < t16 - t01)%Q
  /\ SF2Prim (float_sub t16 t01) = 1.5%float
  /\ group_lines [mkWord "a" 50 t01; mkWord "b" 50 t16]
     = [mkLine t01 [mkWord "a" 50 t01; mkWord "b" 50 t16]].
Proof. repeat split; reflexivity. Qed.

(** ** The scan of the lines *)

Section Scan.

Variable page_idx : Z.

Let line_words (l : line) : list word := sorted Qltb x0 (words l).

(** The four ways a line is treated, by its first text. *)

Lemma scan_line_no_words (st : scan_state) (l : line) :
  first_text l = None -> scan_line page_idx st l = st.
Proof.
  unfold first_text, scan_line. destruct (map text _); [reflexivity|discriminate].
Qed.

Lemma scan_line_date (st : scan_state) (l : line) (t : string) :
  first_text l = Some t -> DATE_RE t = true ->
  scan_line page_idx st l =
  (Some (open_transaction t page_idx (line_words l)), close_current st).
Proof.
  unfold first_text, scan_line, line_words.
  destruct (map text _) as [|t' ts]; [discriminate|].
  simpl. intros [= ->] ->. reflexivity.
Qed.

Lemma scan_line_total (st : scan_state) (l : line) (t : string) :
  first_text l = Some t -> DATE_RE t = false -> String.eqb t "Total" = true ->
  scan_line page_idx st l =
  (None,
   close_current st ++ [summary_record (map text (line_words l)) page_idx]).
Proof.
  unfold first_text, scan_line, line_words.
  destruct (map text _) as [|t' ts]; [discriminate|].
  simpl. intros [= ->] -> ->. reflexivity.
Qed.

Lemma scan_line_other (st : scan_state) (l : line) (t : string) :
  first_text l = Some t -> DATE_RE t = false -> String.eqb t "Total" = false ->
  scan_line page_idx st l =
  match fst st with
  | Some current =>
      (Some (continue_record current t (line_words l)), snd st)
  | None => st
  end.
Proof.
  unfold first_text, scan_line, line_words.
  destruct (map text _) as [|t' ts]; [discriminate|].
  simpl. intros [= ->] -> ->. reflexivity.
Qed.

(** The kind of a line decides the case. *)
Lemma line_kind (l : line) :
  (first_text l = None /\ date_led l = false /\ total_led l = false)
  \/ (exists t, first_text l = Some t /\ DATE_RE t = true
                /\ date_led l = true /\ total_led l = false)
  \/ (exists t, first_text l = Some t /\ DATE_RE t = false
                /\ String.eqb t "Total" = true
                /\ date_led l = false /\ total_led l = true)
  \/ (exists t, first_text l = Some t /\ DATE_RE t = false
                /\ String.eqb t "Total" = false
                /\ date_led l = false /\ total_led l = false).
Proof.
  unfold date_led, total_led. destruct (first_text l) as [t|]; [|tauto].
  destruct (DATE_RE t) eqn:Hd.
  - right; left. exists t. tauto.
  - destruct (String.eqb t "Total") eqn:Ht.
    + right; right; left. exists t. tauto.
    + right; right; right. exists t. tauto.
Qed.

(** What the two word loops never touch. *)

Lemma date_word_keeps (st : record string * list string) (w : word) :
  Date (fst (date_word st w)) = Date (fst st)
  /\ Time (fst (date_word st w)) = Time (fst st)
  /\ Page (fst (date_word st w)) = Page (fst st).
Proof.
  destruct st as [r parts]. unfold date_word.
  destruct (in_withdrawal (x0 w)), (in_deposit (x0 w)), (in_balance (x0 w)),
    (in_branch (x0 w)); simpl; tauto.
Qed.

Lemma fold_date_word_keeps (ws : list word) :
  forall st : record string * list string,
    Date (fst (fold_left date_word ws st)) = Date (fst st)
    /\ Time (fst (fold_left date_word ws st)) = Time (fst st)
    /\ Page (fst (fold_left date_word ws st)) = Page (fst st).
Proof.
  induction ws as [|w ws IH]; intros st; simpl; [tauto|].
  destruct (IH (date_word st w)) as (Hd & Ht & Hp).
  destruct (date_word_keeps st w) as (Hd' & Ht' & Hp').
  rewrite Hd, Ht, Hp. tauto.
Qed.

Lemma open_transaction_date (t : string) (ws : list word) :
  Date (open_transaction t page_idx ws) = t.
Proof.
  unfold open_transaction.
  pose proof (fold_date_word_keeps (tl ws) (blank_record t page_idx, []))
    as (Hd & _).
  destruct (fold_left date_word _ _) as [r parts]. simpl in *. exact Hd.
Qed.

(** A continuation word keeps the date, the time and the page, and every
    amount that is already there. *)
Lemma extra_word_keeps (st : record string * list string) (w : word) :
  Date (fst (extra_word st w)) = Date (fst st)
  /\ Time (fst (extra_word st w)) = Time (fst st)
  /\ Page (fst (extra_word st w)) = Page (fst st)
  /\ (truthy (Withdrawal (fst st)) = true ->
      Withdrawal (fst (extra_word st w)) = Withdrawal (fst st))
  /\ (truthy (Deposit (fst st)) = true ->
      Deposit (fst (extra_word st w)) = Deposit (fst st))
  /\ (truthy (Balance (fst st)) = true ->
      Balance (fst (extra_word st w)) = Balance (fst st)).
Proof.
  destruct st as [r parts]. unfold extra_word. simpl fst.
  destruct (in_withdrawal (x0 w)), (in_deposit (x0 w)), (in_balance (x0 w)),
    (in_branch (x0 w)), (truthy (Withdrawal r)), (truthy (Deposit r)),
    (truthy (Balance r));
    simpl; repeat split; intros; try reflexivity; discriminate.
Qed.

Lemma fold_extra_word_keeps (ws : list word) :
  forall st : record string * list string,
    Date (fst (fold_left extra_word ws st)) = Date (fst st)
    /\ Time (fst (fold_left extra_word ws st)) = Time (fst st)
    /\ Page (fst (fold_left extra_word ws st)) = Page (fst st)
    /\ (truthy (Withdrawal (fst st)) = true ->
        Withdrawal (fst (fold_left extra_word ws st)) = Withdrawal (fst st))
    /\ (truthy (Deposit (fst st)) = true ->
        Deposit (fst (fold_left extra_word ws st)) = Deposit (fst st))
    /\ (truthy (Balance (fst st)) = true ->
        Balance (fst (fold_left extra_word ws st)) = Balance (fst st)).
Proof.
  induction ws as [|w ws IH]; intros st; simpl; [tauto|].
  destruct (IH (extra_word st w)) as (Hd & Ht & Hp & Hw & Hdp & Hb).
  destruct (extra_word_keeps st w) as (Hd' & Ht' & Hp' & Hw' & Hdp' & Hb').
  rewrite Hd, Ht, Hp. repeat split; try assumption.
  - intros H. rewrite Hw; rewrite Hw'; auto.
  - intros H. rewrite Hdp; rewrite Hdp'; auto.
  - intros H. rewrite Hb; rewrite Hb'; auto.
Qed.

(** The record after a continuation line, by the state of the word loop. *)
Lemma continue_record_fields (current : record string) (t : string)
    (ws : list word) :
  let start := if TIME_RE t then set_Time current t else current in
  let rest := if TIME_RE t then tl ws else ws in
  let final := fst (fold_left extra_word rest (start, [])) in
  Date (continue_record current t ws) = Date final
  /\ Time (continue_record current t ws) = Time final
  /\ Withdrawal (continue_record current t ws) = Withdrawal final
  /\ Deposit (continue_record current t ws) = Deposit final
  /\ Balance (continue_record current t ws) = Balance final
  /\ Branch (continue_record current t ws) = Branch final
  /\ Page (continue_record current t ws) = Page final.
Proof.
  unfold continue_record. cbv zeta.
  destruct (fold_left extra_word _ _) as [r extra]. simpl fst.
  destruct extra; simpl; tauto.
Qed.

Lemma continue_record_keeps (current : record string) (t : string)
    (ws : list word) :
  Date (continue_record current t ws) = Date current
  /\ (truthy (Withdrawal current) = true ->
      Withdrawal (continue_record current t ws) = Withdrawal current)
  /\ (truthy (Deposit current) = true ->
      Deposit (continue_record current t ws) = Deposit current)
  /\ (truthy (Balance current) = true ->
      Balance (continue_record current t ws) = Balance current).
Proof.
  destruct (continue_record_fields current t ws)
    as (Hd & _ & Hw & Hdp & Hb & _).
  rewrite Hd, Hw, Hdp, Hb.
  destruct (fold_extra_word_keeps (if TIME_RE t then tl ws else ws)
              ((if TIME_RE t then set_Time current t else current), []))
    as (Hd' & _ & _ & Hw' & Hdp' & Hb').
  simpl fst in *. rewrite Hd'.
  destruct (TIME_RE t); simpl in *; tauto.
Qed.

End Scan.

(** ** Records emitted by a page *)

Local Open Scope nat_scope.

Lemma summary_record_date (texts : list string) (page_idx : Z) :
  Date (summary_record texts page_idx) = EmptyString.
Proof.
  unfold summary_record.
  destruct texts as [|t0 [|kind [|count [|amount rest]]]]; try reflexivity.
  destruct (String.eqb kind "Withdrawal"); [reflexivity|].
  destruct (String.eqb kind "Deposit"); reflexivity.
Qed.

Lemma DATE_RE_truthy (t : string) : DATE_RE t = true -> truthy t = true.
Proof. destruct t; [discriminate|reflexivity]. Qed.

Lemma count_transactions_app {A : Type} (xs ys : list (record A)) :
  count_transactions (xs ++ ys) = count_transactions xs + count_transactions ys.
Proof.
  unfold count_transactions. rewrite filter_app, length_app. reflexivity.
Qed.

(** From any state whose open record, if any, is a transaction, the scan
    appends to [records]: one transaction for the open record and one for
    each Date line, and one summary for each Total line. *)
Lemma scan_lines_emitted (page_idx : Z) (lines : list line) :
  forall (current : option (record string)) (records : list (record string)),
    (forall c, current = Some c -> is_transaction c = true) ->
    exists emitted,
      close_current (fold_left (scan_line page_idx) lines (current, records))
      = records ++ emitted
      /\ count_transactions emitted
         = pending current + length (filter date_led lines)
      /\ length emitted
         = pending current + length (filter date_led lines)
           + length (filter total_led lines).
Proof.
  induction lines as [|l lines IH]; intros current records Hcur.
  - simpl. destruct current as [c|].
    + exists [c]. unfold close_current, count_transactions. simpl.
      rewrite (Hcur c eq_refl). repeat split; reflexivity.
    + exists []. unfold close_current. simpl. rewrite app_nil_r.
      repeat split; reflexivity.
  - simpl fold_left. simpl filter.
    destruct (line_kind l)
      as [(Hf & Hd & Ht)
         |[(t & Hf & Hre & Hd & Ht)
          |[(t & Hf & Hre & Heq & Hd & Ht)
           |(t & Hf & Hre & Heq & Hd & Ht)]]];
      rewrite Hd, Ht.
    + rewrite scan_line_no_words by exact Hf. apply IH, Hcur.
    + rewrite (scan_line_date page_idx _ l t Hf Hre).
      destruct (IH (Some (open_transaction t page_idx
                            (sorted Qltb x0 (words l))))
                   (close_current (current, records)))
        as (e & He & Hc & Hl).
      { intros c [= <-]. unfold is_transaction.
        rewrite open_transaction_date. apply DATE_RE_truthy, Hre. }
      destruct current as [c|].
      * exists (c :: e).
        change (close_current (Some c, records)) with (records ++ [c]) in *.
        rewrite He, <- app_assoc. split; [reflexivity|].
        change (c :: e) with ([c] ++ e).
        rewrite count_transactions_app, length_app, Hc, Hl.
        unfold count_transactions. simpl. rewrite (Hcur c eq_refl). simpl.
        split; lia.
      * exists e.
        change (close_current (None, records)) with records in *.
        rewrite He. simpl in *. repeat split; lia.
    + rewrite (scan_line_total page_idx _ l t Hf Hre Heq).
      destruct (IH None
                   (close_current (current, records)
                    ++ [summary_record
                          (map text (sorted Qltb x0 (words l))) page_idx]))
        as (e & He & Hc & Hl); [discriminate|].
      set (s := summary_record _ _) in *.
      assert (Hs : count_transactions [s] = 0).
      { unfold count_transactions, is_transaction. simpl. unfold s.
        rewrite summary_record_date. reflexivity. }
      destruct current as [c|].
      * exists (c :: s :: e).
        change (close_current (Some c, records)) with (records ++ [c]) in *.
        rewrite He, <- !app_assoc. split; [reflexivity|].
        change (c :: s :: e) with ([c] ++ [s] ++ e).
        rewrite !count_transactions_app, !length_app, Hc, Hl, Hs.
        unfold count_transactions. simpl. rewrite (Hcur c eq_refl). simpl.
        split; lia.
      * exists (s :: e).
        change (close_current (None, records)) with records in *.
        rewrite He, <- !app_assoc. split; [reflexivity|].
        change (s :: e) with ([s] ++ e).
        rewrite !count_transactions_app, !length_app, Hc, Hl, Hs.
        simpl. split; lia.
    + rewrite (scan_line_other page_idx _ l t Hf Hre Heq). simpl fst. simpl snd.
      destruct current as [c|]; [|apply IH; discriminate].
      destruct (IH (Some (continue_record c t (sorted Qltb x0 (words l))))
                   records) as (e & He & Hc & Hl).
      { intros c' [= <-]. unfold is_transaction.
        destruct (continue_record_keeps c t (sorted Qltb x0 (words l)))
          as (Hdate & _).
        rewrite Hdate. apply (Hcur c eq_refl). }
      exists e. simpl in *. repeat split; assumption || lia.
Qed.

(** C4. On every page a Date line closes the open record, if any, and opens
    exactly one transaction; what the page appends to the records holds as
    many records with a date as the page has Date lines, and as many
    records in all as it has Date lines and Total lines: every opened
    transaction is emitted and continuation lines add none. *)
Theorem date_lines_count_transactions (page_idx : Z)
    (records : list (record string)) (page_words : list word) :
  (forall (st : scan_state) (l : line),
      date_led l = true ->
      exists r,
        scan_line page_idx st l = (Some r, close_current st)
        /\ is_transaction r = true)
  /\ exists emitted,
       extract_page page_idx records page_words = records ++ emitted
       /\ count_transactions emitted
          = length (filter date_led (page_lines page_words))
       /\ length emitted
          = length (filter date_led (page_lines page_words))
            + length (filter total_led (page_lines page_words)).
Proof.
  split.
  - intros st l Hl.
    destruct (line_kind l)
      as [(Hf & Hd & Ht)
         |[(t & Hf & Hre & Hd & Ht)
          |[(t & Hf & Hre & Heq & Hd & Ht)
           |(t & Hf & Hre & Heq & Hd & Ht)]]];
      try congruence.
    rewrite (scan_line_date page_idx st l t Hf Hre).
    eexists. split; [reflexivity|].
    unfold is_transaction. rewrite open_transaction_date.
    apply DATE_RE_truthy, Hre.
  - unfold extract_page, scan_lines. fold (page_lines page_words).
    destruct (scan_lines_emitted page_idx (page_lines page_words) None records)
      as (e & He & Hc & Hl); [discriminate|].
    exists e. simpl in Hc, Hl. tauto.
Qed.

(** A Date line met while a transaction is open. *)
Lemma date_lines_count_transactions_witness :
  exists r,
    scan_line 1
      (Some (mkRecord "01/02/23" "" "Grocery" "150.00" "" "" "" 1%Z), [])
      (mkLine 324 [mkWord "Cafe" 100 324; mkWord "02/02/23" 40 324])
    = (Some r, [mkRecord "01/02/23" "" "Grocery" "150.00" "" "" "" 1%Z])
    /\ is_transaction r = true.
Proof.
  destruct (date_lines_count_transactions 1 [] []) as [Hopen _].
  apply (Hopen
           (Some (mkRecord "01/02/23" "" "Grocery" "150.00" "" "" "" 1%Z), [])
           (mkLine 324 [mkWord "Cafe" 100 324; mkWord "02/02/23" 40 324])).
  reflexivity.
Defined.

(** ** Continuation lines *)

Lemma is_continuation_kinds (l : line) :
  is_continuation l = true -> date_led l = false /\ total_led l = false.
Proof.
  unfold is_continuation. intros H. apply andb_true_iff in H.
  destruct H as [Hd Ht]. apply negb_true_iff in Hd, Ht. tauto.
Qed.

(** A continuation line leaves [records] alone and keeps a record open. *)
Lemma scan_continuation (page_idx : Z) (current : record string)
    (records : list (record string)) (l : line) :
  is_continuation l = true ->
  scan_line page_idx (Some current, records) l =
  (Some (match first_text l with
         | Some t => continue_record current t (sorted Qltb x0 (words l))
         | None => current
         end), records).
Proof.
  intros H. apply is_continuation_kinds in H. destruct H as [Hd Ht].
  destruct (line_kind l)
    as [(Hf & _)
       |[(t & Hf & Hre & Hd' & _)
        |[(t & Hf & Hre & Heq & _ & Ht')
         |(t & Hf & Hre & Heq & _)]]];
    try congruence.
  - rewrite scan_line_no_words by exact Hf. rewrite Hf. reflexivity.
  - rewrite (scan_line_other page_idx _ l t Hf Hre Heq). rewrite Hf.
    reflexivity.
Qed.

(** A run of continuation lines keeps a record open and emits nothing. *)
Lemma continuation_stays_open (page_idx : Z) (lines : list line)
    (records : list (record string)) :
  Forall (fun l => is_continuation l = true) lines ->
  forall current : record string,
  exists current',
    fold_left (scan_line page_idx) lines (Some current, records)
    = (Some current', records).
Proof.
  induction 1 as [|l lines Hl _ IH]; intros current.
  - exists current. reflexivity.
  - simpl fold_left. rewrite (scan_continuation page_idx current records l Hl).
    apply IH.
Qed.

(** C2. Over any run of continuation lines the record stays open, nothing
    is emitted, and each of Withdrawal, Deposit and Balance that holds a
    non-empty value when the run starts (set by the opening line or by an
    earlier continuation line) holds the same value when it ends. *)
Theorem continuation_keeps_amounts (page_idx : Z) (lines : list line)
    (current : record string) (records : list (record string)) :
  Forall (fun l => is_continuation l = true) lines ->
  exists current',
    fold_left (scan_line page_idx) lines (Some current, records)
    = (Some current', records)
    /\ (truthy (Withdrawal current) = true ->
        Withdrawal current' = Withdrawal current)
    /\ (truthy (Deposit current) = true ->
        Deposit current' = Deposit current)
    /\ (truthy (Balance current) = true ->
        Balance current' = Balance current).
Proof.
  intros Hall. revert current.
  induction Hall as [|l lines Hl _ IH]; intros current.
  - exists current. simpl. tauto.
  - simpl fold_left. rewrite (scan_continuation page_idx current records l Hl).
    set (c1 := match first_text l with
               | Some t => continue_record current t (sorted Qltb x0 (words l))
               | None => current
               end).
    assert (Hkeep :
      (truthy (Withdrawal current) = true -> Withdrawal c1 = Withdrawal current)
      /\ (truthy (Deposit current) = true -> Deposit c1 = Deposit current)
      /\ (truthy (Balance current) = true -> Balance c1 = Balance current)).
    { unfold c1. destruct (first_text l) as [t|]; [|tauto].
      destruct (continue_record_keeps current t (sorted Qltb x0 (words l)))
        as (_ & Hw & Hd & Hb). tauto. }
    destruct Hkeep as (Hw & Hd & Hb).
    destruct (IH c1) as (c' & Hfold & Hw' & Hd' & Hb').
    exists c'. split; [exact Hfold|].
    repeat split; intros H.
    + rewrite Hw'; rewrite Hw; auto.
    + rewrite Hd'; rewrite Hd; auto.
    + rewrite Hb'; rewrite Hb; auto.
Qed.

(** An open record with a withdrawal, then two continuation lines that
    each carry a word in the Withdrawal band. *)
Lemma continuation_keeps_amounts_witness :
  exists current',
    fold_left (scan_line 1)
      [mkLine 312 [mkWord "Ref:" 100 312; mkWord "999.99" 380 312];
       mkLine 324 [mkWord "1.00" 400 324]]
      (Some (mkRecord "01/02/23" "" "Grocery" "150.00" "" "" "" 1), [])
    = (Some current', [])
    /\ Withdrawal current' = "150.00".
Proof.
  destruct (continuation_keeps_amounts 1
              [mkLine 312 [mkWord "Ref:" 100 312; mkWord "999.99" 380 312];
               mkLine 324 [mkWord "1.00" 400 324]]
              (mkRecord "01/02/23" "" "Grocery" "150.00" "" "" "" 1) [])
    as (c & Hfold & Hw & _).
  - repeat constructor.
  - exists c. split; [exact Hfold|]. apply Hw. reflexivity.
Defined.

(** The refused amounts of a continuation line are not lost: they join the
    description. *)
Example continuation_refused_amount :
  fold_left (scan_line 1)
    [mkLine 312 [mkWord "Ref:" 100 312; mkWord "999.99" 380 312]]
    (Some (mkRecord "01/02/23" "" "Grocery" "150.00" "" "" "" 1), [])
  = (Some (mkRecord "01/02/23" "" "Grocery Ref: 999.99" "150.00" "" "" "" 1),
     []).
Proof. reflexivity. Qed.

(** ** The time of a transaction *)

Lemma TIME_RE_not_date_nor_total (t : string) :
  TIME_RE t = true -> DATE_RE t = false /\ String.eqb t "Total" = false.
Proof.
  destruct t as [|a [|b [|c [|d [|e [|f t]]]]]]; try discriminate.
  simpl. intros H. split; [reflexivity|].
  destruct (Ascii.eqb c ":") eqn:Hc;
    [|rewrite !andb_false_r in H; simpl in H;
      destruct (isdigit a && isdigit b); discriminate].
  apply Ascii.eqb_eq in Hc. subst c.
  destruct (Ascii.eqb a "T"); [|reflexivity].
  destruct (Ascii.eqb b "o"); reflexivity.
Qed.

Lemma time_led_is_continuation (l : line) :
  time_led l = true -> is_continuation l = true.
Proof.
  unfold time_led, is_continuation, date_led, total_led.
  destruct (first_text l) as [t|]; [|discriminate].
  intros H. destruct (TIME_RE_not_date_nor_total t H) as [-> ->].
  reflexivity.
Qed.

(** The time after a continuation line: the first text when it is a time,
    the time the record had otherwise. *)
Lemma continue_record_time (current : record string) (t : string)
    (ws : list word) :
  Time (continue_record current t ws) =
  if TIME_RE t then t else Time current.
Proof.
  destruct (continue_record_fields current t ws) as (_ & Ht & _).
  rewrite Ht.
  destruct (fold_extra_word_keeps (if TIME_RE t then tl ws else ws)
              ((if TIME_RE t then set_Time current t else current), []))
    as (_ & Ht' & _).
  rewrite Ht'. destruct (TIME_RE t); reflexivity.
Qed.

(** Over a run of continuation lines none of which starts with a time, the
    time stays. *)
Lemma continuation_keeps_time (page_idx : Z) (lines : list line) :
  forall (current : record string) (records : list (record string)),
    Forall (fun l => is_continuation l = true /\ time_led l = false) lines ->
    exists current',
      fold_left (scan_line page_idx) lines (Some current, records)
      = (Some current', records)
      /\ Time current' = Time current.
Proof.
  induction lines as [|l lines IH]; intros current records Hall.
  - exists current. split; reflexivity.
  - inversion Hall as [|l' lines' [Hc Ht] Hrest]; subst.
    simpl fold_left. rewrite (scan_continuation page_idx current records l Hc).
    destruct (IH (match first_text l with
                  | Some t => continue_record current t
                                (sorted Qltb x0 (words l))
                  | None => current
                  end) records Hrest) as (c' & Hfold & Htime).
    exists c'. split; [exact Hfold|]. rewrite Htime.
    unfold time_led in Ht. destruct (first_text l) as [t|]; [|reflexivity].
    rewrite continue_record_time, Ht. reflexivity.
Qed.

(** C10. A continuation line whose first text is a time sets Time to it
    whatever Time held; so after any run of continuation lines the Time of
    the open record is the first text of the last line of the run that
    starts with a time: the later value replaces the earlier one. *)
Theorem continuation_time_last_wins (page_idx : Z)
    (current : record string) (records : list (record string))
    (before after : list line) (l : line) (t : string) :
  Forall (fun l' => is_continuation l' = true) before ->
  first_text l = Some t -> TIME_RE t = true ->
  Forall (fun l' => is_continuation l' = true /\ time_led l' = false) after ->
  exists current',
    fold_left (scan_line page_idx) (before ++ l :: after)
              (Some current, records)
    = (Some current', records)
    /\ Time current' = t.
Proof.
  intros Hbefore Hf Ht Hafter.
  destruct (continuation_stays_open page_idx before records Hbefore current)
    as (c1 & Hfold1).
  rewrite fold_left_app, Hfold1. simpl fold_left.
  assert (Hl : is_continuation l = true).
  { apply time_led_is_continuation. unfold time_led. rewrite Hf. exact Ht. }
  rewrite (scan_continuation page_idx c1 records l Hl), Hf.
  destruct (continuation_keeps_time page_idx after
              (continue_record c1 t (sorted Qltb x0 (words l))) records Hafter)
    as (c' & Hfold & Htime).
  exists c'. split; [exact Hfold|].
  rewrite Htime, continue_record_time, Ht. reflexivity.
Qed.

(** Two continuation lines that start with a time, then one that does
    not. *)
Lemma continuation_time_last_wins_witness :
  exists current',
    fold_left (scan_line 1)
      ([mkLine 312 [mkWord "09:15" 40 312; mkWord "ATM" 100 312]]
       ++ mkLine 324 [mkWord "10:30" 40 324]
       :: [mkLine 336 [mkWord "Ref" 100 336]])
      (Some (mkRecord "01/02/23" "08:00" "Cash" "" "" "" "" 1), [])
    = (Some current', [])
    /\ Time current' = "10:30".
Proof.
  apply (continuation_time_last_wins 1
           (mkRecord "01/02/23" "08:00" "Cash" "" "" "" "" 1) []
           [mkLine 312 [mkWord "09:15" 40 312; mkWord "ATM" 100 312]]
           [mkLine 336 [mkWord "Ref" 100 336]]
           (mkLine 324 [mkWord "10:30" 40 324]) "10:30").
  - repeat constructor.
  - reflexivity.
  - reflexivity.
  - repeat constructor.
Defined.

(** ** Column bands *)

Lemma Qltb_true (a b : Q) : Qltb a b = true <-> (a < b)%Q.
Proof.
  unfold Qltb. rewrite Qlt_alt. destruct (a ?= b)%Q; split; congruence.
Qed.

Lemma Qleb_true (a b : Q) : Qleb a b = true <-> (a <= b)%Q.
Proof.
  unfold Qleb. rewrite Qle_alt. destruct (a ?= b)%Q; split; congruence.
Qed.

Lemma in_withdrawal_iff (x : Q) :
  in_withdrawal x = true <-> (340 <= x /\ x <= 420)%Q.
Proof.
  unfold in_withdrawal, WITHDRAWAL_RANGE. simpl fst. simpl snd.
  rewrite andb_true_iff, !Qleb_true. tauto.
Qed.

Lemma in_deposit_iff (x : Q) :
  in_deposit x = true <-> (420 < x /\ x <= 470)%Q.
Proof.
  unfold in_deposit, DEPOSIT_RANGE. simpl fst. simpl snd.
  rewrite andb_true_iff, Qltb_true, Qleb_true. tauto.
Qed.

Lemma in_balance_iff (x : Q) :
  in_balance x = true <-> (470 < x /\ x <= 540)%Q.
Proof.
  unfold in_balance, BALANCE_RANGE. simpl fst. simpl snd.
  rewrite andb_true_iff, Qltb_true, Qleb_true. tauto.
Qed.

Lemma in_branch_iff (x : Q) : in_branch x = true <-> (530 < x)%Q.
Proof. unfold in_branch, BRANCH_MIN_X. apply Qltb_true. Qed.

(** Decide the four band tests of [x], keeping what each says about [x]. *)
Ltac band_cases x :=
  let Hw := fresh "Hw" in
  let Hd := fresh "Hd" in
  let Hb := fresh "Hb" in
  let Hr := fresh "Hr" in
  destruct (in_withdrawal x) eqn:Hw;
  destruct (in_deposit x) eqn:Hd;
  destruct (in_balance x) eqn:Hb;
  destruct (in_branch x) eqn:Hr;
  try (apply in_withdrawal_iff in Hw);
  try (apply in_deposit_iff in Hd);
  try (apply in_balance_iff in Hb);
  try (apply in_branch_iff in Hr).

(** The three amount bands do not meet. *)
Lemma amount_bands_disjoint (x : Q) :
  (in_withdrawal x = true -> in_deposit x = false /\ in_balance x = false)
  /\ (in_deposit x = true -> in_balance x = false).
Proof.
  band_cases x; repeat split; intros; try reflexivity; try discriminate;
    exfalso; lra.
Qed.

(** Above the Balance band every word is Branch text. *)
Lemma beyond_balance (x : Q) :
  (540 < x)%Q ->
  in_withdrawal x = false /\ in_deposit x = false /\ in_balance x = false
  /\ in_branch x = true.
Proof.
  intros H. band_cases x; repeat split; try reflexivity; exfalso;
    try lra.
  all: apply not_true_iff_false in Hr; apply Hr, in_branch_iff; lra.
Qed.

(** Between the branch threshold and the end of the Balance band both
    tests hold, and Balance is tested first. *)
Lemma branch_balance_overlap (x : Q) :
  (530 < x)%Q -> (x <= 540)%Q ->
  in_withdrawal x = false /\ in_deposit x = false /\ in_balance x = true
  /\ in_branch x = true.
Proof.
  intros H1 H2. band_cases x; repeat split; try reflexivity; exfalso;
    try lra.
  all: try (apply not_true_iff_false in Hb; apply Hb, in_balance_iff; lra).
  all: apply not_true_iff_false in Hr; apply Hr, in_branch_iff; lra.
Qed.

(** ** Amounts on the opening line *)

Lemma last_snoc {A : Type} (l : list A) (a d : A) : last (l ++ [a]) d = a.
Proof. apply last_last. Qed.

(** After the word loop of an opening line each amount holds the text of
    the last word of its band, or what it held before when the band is
    empty. *)
Lemma fold_date_word_amounts (ws : list word) :
  forall (r0 : record string) (d0 : list string),
    let r := fst (fold_left date_word ws (r0, d0)) in
    Withdrawal r
    = last (map text (filter (fun w => in_withdrawal (x0 w)) ws))
           (Withdrawal r0)
    /\ Deposit r
       = last (map text (filter (fun w => in_deposit (x0 w)) ws)) (Deposit r0)
    /\ Balance r
       = last (map text (filter (fun w => in_balance (x0 w)) ws)) (Balance r0).
Proof.
  induction ws as [|w ws IH] using rev_ind; intros r0 d0; [simpl; tauto|].
  cbv zeta. rewrite fold_left_app, !filter_app, !map_app. simpl fold_left.
  specialize (IH r0 d0). cbv zeta in IH.
  destruct (fold_left date_word ws (r0, d0)) as [r parts]. simpl fst in IH.
  destruct IH as (IHw & IHd & IHb).
  unfold date_word. simpl filter.
  destruct (amount_bands_disjoint (x0 w)) as [Hwd Hdb].
  destruct (in_withdrawal (x0 w)) eqn:Hw.
  - destruct (Hwd eq_refl) as [-> ->]. simpl. rewrite app_nil_r, last_snoc.
    rewrite !app_nil_r. tauto.
  - destruct (in_deposit (x0 w)) eqn:Hd.
    + rewrite (Hdb eq_refl). simpl. rewrite !app_nil_r, last_snoc. tauto.
    + destruct (in_balance (x0 w)) eqn:Hb.
      * simpl. rewrite !app_nil_r, last_snoc. tauto.
      * destruct (in_branch (x0 w)); simpl; rewrite !app_nil_r; tauto.
Qed.

(** C9. On an opening Date line each amount field receives the text of the
    last word, in left-to-right order after the date, that falls in its
    band (and stays empty when there is none): a later word replaces an
    earlier one, with no guard. *)
Theorem opening_line_last_amount_wins (page_idx : Z) (st : scan_state)
    (l : line) :
  date_led l = true ->
  exists r,
    scan_line page_idx st l = (Some r, close_current st)
    /\ Withdrawal r
       = last (map text (filter (fun w => in_withdrawal (x0 w))
                                (tl (sorted Qltb x0 (words l))))) EmptyString
    /\ Deposit r
       = last (map text (filter (fun w => in_deposit (x0 w))
                                (tl (sorted Qltb x0 (words l))))) EmptyString
    /\ Balance r
       = last (map text (filter (fun w => in_balance (x0 w))
                                (tl (sorted Qltb x0 (words l))))) EmptyString.
Proof.
  intros Hl.
  destruct (line_kind l)
    as [(Hf & Hd & Ht)
       |[(t & Hf & Hre & Hd & Ht)
        |[(t & Hf & Hre & Heq & Hd & Ht)
         |(t & Hf & Hre & Heq & Hd & Ht)]]];
    try congruence.
  rewrite (scan_line_date page_idx st l t Hf Hre).
  eexists. split; [reflexivity|].
  unfold open_transaction.
  pose proof (fold_date_word_amounts (tl (sorted Qltb x0 (words l)))
                (blank_record t page_idx) []) as H.
  cbv zeta in H.
  destruct (fold_left date_word _ _) as [r parts]. simpl in H |- *.
  exact H.
Qed.

(** Two words in the Withdrawal band and two in the Balance band, given out
    of order. *)
Lemma opening_line_last_amount_wins_witness :
  exists r,
    scan_line 1 (None, [])
      (mkLine 300 [mkWord "2.00" 400 300; mkWord "01/02/23" 40 300;
                   mkWord "9.00" 480 300; mkWord "1.00" 350 300;
                   mkWord "8.00" 500 300])
    = (Some r, [])
    /\ Withdrawal r = "2.00" /\ Deposit r = "" /\ Balance r = "8.00".
Proof.
  apply (opening_line_last_amount_wins 1 (None, [])
           (mkLine 300 [mkWord "2.00" 400 300; mkWord "01/02/23" 40 300;
                        mkWord "9.00" 480 300; mkWord "1.00" 350 300;
                        mkWord "8.00" 500 300])).
  reflexivity.
Defined.

(** ** Branch text *)

(** C3 as stated fails: a word at 535 is beyond the branch threshold, yet
    on an opening line and on a continuation line it is not appended to
    Branch; it becomes the Balance, and the returned row has the balance
    7.5 and no branch. *)
Lemma branch_threshold_counterexample :
  let w := mkWord "7.50" 535 300 in
  let current := blank_record "01/02/23" 1 in
  (530 < x0 w)%Q
  /\ date_word (current, []) w
     <> (set_Branch current (strip (Branch current ++ " " ++ text w)%string),
         [])
  /\ date_word (current, []) w = (set_Balance current "7.50", [])
  /\ extra_word (current, []) w = (set_Balance current "7.50", [])
  /\ extract_statement_records
       [[mkWord "01/02/23" 40 300; mkWord "7.50" 535 300]]
     = Ok [mkRecord "01/02/23" "" "" None None (Some 7.5%float) "" 1].
Proof.
  cbv zeta. split; [reflexivity|].
  split; [intros H; vm_compute in H; discriminate|].
  repeat split; reflexivity.
Qed.

(** C3, amended. A word beyond 540, the end of the Balance band, is Branch
    text on an opening line and on a continuation line: it is appended to
    Branch after a space, the result stripped, and no other field and no
    description part changes.  A word beyond the branch threshold 530 but
    not beyond 540 is in the Balance band, which is tested first: on an
    opening line it becomes the Balance; on a continuation line it becomes
    the Balance when that is empty and is Branch text otherwise. *)
Theorem branch_beyond_balance_band (current : record string)
    (parts : list string) (w : word) :
  (530 < x0 w)%Q ->
  let branch :=
    (set_Branch current (strip (Branch current ++ " " ++ text w)%string),
     parts) in
  let balance := (set_Balance current (text w), parts) in
  ((540 < x0 w)%Q ->
   date_word (current, parts) w = branch
   /\ extra_word (current, parts) w = branch)
  /\ ((x0 w <= 540)%Q ->
      date_word (current, parts) w = balance
      /\ extra_word (current, parts) w
         = if truthy (Balance current) then branch else balance).
Proof.
  intros H530 branch balance. split; intros H.
  - destruct (beyond_balance (x0 w) H) as (Hw & Hd & Hb & Hr).
    unfold date_word, extra_word. rewrite Hw, Hd, Hb, Hr. split; reflexivity.
  - destruct (branch_balance_overlap (x0 w) H530 H) as (Hw & Hd & Hb & Hr).
    unfold date_word, extra_word. rewrite Hw, Hd, Hb, Hr. simpl.
    split; [reflexivity|]. destruct (truthy (Balance current)); reflexivity.
Qed.

(** A word at 545 after an earlier branch word, and a word at 535 on a
    continuation line of a record that has its balance. *)
Lemma branch_beyond_balance_band_witness :
  date_word (mkRecord "01/02/23" "" "" "" "" "" "MAIN" 1, ["Cash"])
            (mkWord "ST" 545 300)
  = (mkRecord "01/02/23" "" "" "" "" "" "MAIN ST" 1, ["Cash"])
  /\ extra_word (mkRecord "01/02/23" "" "" "" "" "" "MAIN" 1, ["Cash"])
                (mkWord "ST" 545 300)
     = (mkRecord "01/02/23" "" "" "" "" "" "MAIN ST" 1, ["Cash"])
  /\ extra_word (mkRecord "01/02/23" "" "" "" "" "88.10" "MAIN" 1, ["Cash"])
                (mkWord "ST" 535 312)
     = (mkRecord "01/02/23" "" "" "" "" "88.10" "MAIN ST" 1, ["Cash"]).
Proof.
  split; [|split].
  - apply (branch_beyond_balance_band
             (mkRecord "01/02/23" "" "" "" "" "" "MAIN" 1) ["Cash"]
             (mkWord "ST" 545 300)); reflexivity.
  - apply (branch_beyond_balance_band
             (mkRecord "01/02/23" "" "" "" "" "" "MAIN" 1) ["Cash"]
             (mkWord "ST" 545 300)); reflexivity.
  - apply (branch_beyond_balance_band
             (mkRecord "01/02/23" "" "" "" "" "88.10" "MAIN" 1) ["Cash"]
             (mkWord "ST" 535 312)); [reflexivity|].
    intros H. discriminate H.
Defined.

(** ** Amount parsing *)

Lemma strip_idempotent (s : string) : strip (strip s) = strip s.
Proof.
  unfold strip.
  rewrite (lstrip_fixed (rstrip (lstrip s))).
  - apply rstrip_idempotent.
  - apply rstrip_keeps_start, lstrip_no_leading_space.
Qed.

Lemma strip_empty : strip EmptyString = EmptyString.
Proof. reflexivity. Qed.

(** The constructor raises nothing but [InvalidOperation]. *)
Lemma Decimal_raises (s : string) (e : exn) :
  PyDecimal.Decimal s = Raise e -> e = InvalidOperation.
Proof.
  unfold PyDecimal.Decimal.
  destruct (PyDecimal.parse_sign _) as [neg body].
  destruct (_ || _); [discriminate|].
  destruct (PyDecimal.parse_nan _ _); [discriminate|].
  unfold PyDecimal.parse_finite.
  destruct (PyDecimal.span_digits body) as [ip r1].
  destruct (match r1 with
            | String "."%char r => PyDecimal.span_digits r
            | _ => (EmptyString, r1)
            end) as [fp r2].
  destruct (negb (truthy ip) && negb (truthy fp)); [congruence|].
  destruct (PyDecimal.parse_exponent r2); [|congruence].
  unfold PyDecimal.finalize. destruct (_ || _); congruence.
Qed.

(** The conversion raises nothing but [ValueError]. *)
Lemma float_of_decimal_raises (d : PyDecimal.decimal) (e : exn) :
  PyDecimal.float_of_decimal d = Raise e -> e = ValueError.
Proof.
  destruct d as [neg c x|neg|neg [|] p]; simpl; congruence.
Qed.

(** The amount of a non-empty stripped text, by what the library calls
    return. *)
Lemma parse_amount_cases (s : string) :
  truthy (strip s) = true ->
  _parse_amount s =
  match PyDecimal.Decimal (replace "," "" (strip s)) with
  | Ok d =>
      match PyDecimal.float_of_decimal d with
      | Ok f => Ok (Some f)
      | Raise _ => Ok None
      end
  | Raise _ => Ok None
  end.
Proof.
  intros H. unfold _parse_amount. rewrite H. simpl negb. cbv iota.
  destruct (PyDecimal.Decimal _) as [d|e] eqn:Hd; simpl.
  - destruct (PyDecimal.float_of_decimal d) as [f|e] eqn:Hf; simpl;
      [reflexivity|].
    rewrite (float_of_decimal_raises d e Hf). reflexivity.
  - rewrite (Decimal_raises _ e Hd). reflexivity.
Qed.

Lemma parse_amount_returns (s : string) :
  exists r, _parse_amount s = Ok r.
Proof.
  destruct (truthy (strip s)) eqn:H.
  - rewrite (parse_amount_cases s H).
    destruct (PyDecimal.Decimal _) as [d|e]; [|eexists; reflexivity].
    destruct (PyDecimal.float_of_decimal d); eexists; reflexivity.
  - unfold _parse_amount. rewrite H. eexists. reflexivity.
Qed.

(** C5. [_parse_amount] raises nothing; surrounding whitespace does not
    change its result; a text that is empty once stripped is absent;
    otherwise the commas are removed and the rest is read as a decimal and
    converted to a float, and whenever reading or converting fails the
    amount is absent.  In particular "1,234.56" gives 1234.56, "" and "abc"
    are absent, and "-50.00" gives -50.0. *)
Theorem parse_amount_tolerant :
  (forall s, exists r, _parse_amount s = Ok r)
  /\ (forall s, _parse_amount (strip s) = _parse_amount s)
  /\ (forall s, strip s = EmptyString -> _parse_amount s = Ok None)
  /\ (forall s, strip s <> EmptyString ->
        _parse_amount s =
        match PyDecimal.Decimal (replace "," "" (strip s)) with
        | Ok d =>
            match PyDecimal.float_of_decimal d with
            | Ok f => Ok (Some f)
            | Raise _ => Ok None
            end
        | Raise _ => Ok None
        end)
  /\ _parse_amount "1,234.56" = Ok (Some 1234.56%float)
  /\ _parse_amount "" = Ok None
  /\ _parse_amount "abc" = Ok None
  /\ _parse_amount "-50.00" = Ok (Some (-50.0)%float).
Proof.
  split; [exact parse_amount_returns|].
  split; [intros s; unfold _parse_amount; rewrite strip_idempotent;
          reflexivity|].
  split; [intros s H; unfold _parse_amount; rewrite H; reflexivity|].
  split.
  { intros s H. apply parse_amount_cases.
    destruct (strip s); [congruence|reflexivity]. }
  repeat split; vm_compute; reflexivity.
Qed.

(** Texts around a number, a signalling NaN and an amount beyond the
    largest float. *)
Lemma parse_amount_tolerant_witness :
  _parse_amount "   " = Ok None
  /\ _parse_amount " 1,000,000 " = Ok (Some 1000000%float)
  /\ _parse_amount "sNaN" = Ok None
  /\ _parse_amount "1e400" = Ok (Some infinity).
Proof.
  destruct parse_amount_tolerant as (_ & _ & Hempty & Hparse & _).
  split; [apply Hempty; reflexivity|].
  split; [rewrite Hparse by discriminate; vm_compute; reflexivity|].
  split; [rewrite Hparse by discriminate; vm_compute; reflexivity|].
  rewrite Hparse by discriminate. vm_compute. reflexivity.
Defined.

(** ** The returned table *)

Lemma mapM_parse_amount_returns (xs : list string) :
  exists rs, mapM _parse_amount xs = Ok rs /\ length rs = length xs.
Proof.
  induction xs as [|x xs (rs & Hrs & Hlen)]; [exists []; split; reflexivity|].
  destruct (parse_amount_returns x) as (r & Hr).
  exists (r :: rs). simpl. rewrite Hr, Hrs. simpl. rewrite Hlen.
  split; reflexivity.
Qed.

(** The first row of the table comes from the first record. *)
Lemma convert_amounts_cons (r : record string) (rs : list (record string))
    (w d b : option float) :
  _parse_amount (Withdrawal r) = Ok w ->
  _parse_amount (Deposit r) = Ok d ->
  _parse_amount (Balance r) = Ok b ->
  exists tail,
    convert_amounts (r :: rs)
    = Ok (mkRecord (Date r) (Time r) (Description r) (amount_cell w)
                   (amount_cell d) (amount_cell b) (Branch r) (Page r)
          :: tail).
Proof.
  intros Hw Hd Hb. unfold convert_amounts. simpl map. simpl mapM.
  rewrite Hw, Hd, Hb.
  destruct (mapM_parse_amount_returns (map Withdrawal rs)) as (ws & -> & _).
  destruct (mapM_parse_amount_returns (map Deposit rs)) as (ds & -> & _).
  destruct (mapM_parse_amount_returns (map Balance rs)) as (bs & -> & _).
  simpl. eexists. reflexivity.
Qed.

(** ** The Total line *)

(** C6. A line whose texts from left to right are "Total", "Withdrawal",
    "12", "4500.00" (and possibly more) closes and emits the open record,
    if any, and appends at once a summary with an empty date, the
    description "Total Withdrawal (count: 12)", the withdrawal text
    "4500.00" and nothing else; no record is open after it; in the table
    the summary has the withdrawal 4500.0 and no deposit. *)
Theorem total_withdrawal_summary (page_idx : Z) (st : scan_state) (l : line)
    (more : list string) :
  map text (sorted Qltb x0 (words l))
  = "Total" :: "Withdrawal" :: "12" :: "4500.00" :: more ->
  scan_line page_idx st l
  = (None,
     close_current st
     ++ [mkRecord "" "" "Total Withdrawal (count: 12)" "4500.00" "" "" ""
                  page_idx])
  /\ convert_amounts
       [mkRecord "" "" "Total Withdrawal (count: 12)" "4500.00" "" "" ""
                 page_idx]
     = Ok [mkRecord "" "" "Total Withdrawal (count: 12)"
                    (Some 4500.0%float) None None "" page_idx].
Proof.
  intros H. split.
  - unfold scan_line. rewrite H. reflexivity.
  - vm_compute. reflexivity.
Qed.

(** The Total line after an open transaction, its words out of order. *)
Lemma total_withdrawal_summary_witness :
  scan_line 2
    (Some (mkRecord "01/02/23" "" "Grocery" "150.00" "" "" "" 2), [])
    (mkLine 340 [mkWord "12" 200 340; mkWord "Total" 40 340;
                 mkWord "4500.00" 380 340; mkWord "Withdrawal" 80 340])
  = (None,
     [mkRecord "01/02/23" "" "Grocery" "150.00" "" "" "" 2;
      mkRecord "" "" "Total Withdrawal (count: 12)" "4500.00" "" "" "" 2]).
Proof.
  apply (total_withdrawal_summary 2
           (Some (mkRecord "01/02/23" "" "Grocery" "150.00" "" "" "" 2), [])
           (mkLine 340 [mkWord "12" 200 340; mkWord "Total" 40 340;
                        mkWord "4500.00" 380 340; mkWord "Withdrawal" 80 340])
           []).
  reflexivity.
Defined.

(** ** The end-to-end scenario *)

(** C1. When the lines of the only page start with the opening line
    [01/02/23 Grocery Store 150.00] (the amount at 380, in the Withdrawal
    band), the continuation line [Ref: 999] and a further Date line, the
    first row of the table is the transaction of 01/02/23 with the
    description "Grocery Store Ref: 999", the withdrawal 150.0 and no
    balance. *)
Theorem grocery_scenario (page_words : list word) (l3 : line)
    (rest : list line) :
  page_lines page_words = grocery_line :: ref_line :: l3 :: rest ->
  date_led l3 = true ->
  exists tail,
    extract_statement_records [page_words]
    = Ok (mkRecord "01/02/23" "" "Grocery Store Ref: 999"
                   (Some 150.0%float) None None "" 1%Z
          :: tail).
Proof.
  intros Hlines Hl3.
  unfold extract_statement_records. simpl extract_pages.
  unfold extract_page, scan_lines. fold (page_lines page_words).
  rewrite Hlines. simpl fold_left.
  assert (H12 :
    scan_line 1 (scan_line 1 (None, []) grocery_line) ref_line
    = (Some (mkRecord "01/02/23" "" "Grocery Store Ref: 999" "150.00" "" ""
                      "" 1%Z), [])) by reflexivity.
  rewrite H12.
  destruct (line_kind l3)
    as [(Hf & Hd & Ht)
       |[(t & Hf & Hre & Hd & Ht)
        |[(t & Hf & Hre & Heq & Hd & Ht)
         |(t & Hf & Hre & Heq & Hd & Ht)]]];
    try congruence.
  rewrite (scan_line_date 1 _ l3 t Hf Hre).
  destruct (scan_lines_emitted 1 rest
              (Some (open_transaction t 1 (sorted Qltb x0 (words l3))))
              (close_current
                 (Some (mkRecord "01/02/23" "" "Grocery Store Ref: 999"
                                 "150.00" "" "" "" 1%Z), [])))
    as (e & He & _).
  { intros c [= <-]. unfold is_transaction. rewrite open_transaction_date.
    apply DATE_RE_truthy, Hre. }
  rewrite He.
  apply (convert_amounts_cons
           (mkRecord "01/02/23" "" "Grocery Store Ref: 999" "150.00" "" ""
                     "" 1%Z) e (Some 150.0%float) None None);
    vm_compute; reflexivity.
Qed.

(** The words of the scenario as a page gives them, out of order and with
    slightly uneven tops, followed by a second transaction. *)
Lemma grocery_scenario_witness :
  exists tail,
    extract_statement_records
      [[mkWord "Ref:" 100 312; mkWord "150.00" 380 300;
        mkWord "Store" 140 300; mkWord "02/02/23" 40 324;
        mkWord "01/02/23" 40 300; mkWord "Cafe" 100 324;
        mkWord "Grocery" 100 300; mkWord "999" 125 312]]
    = Ok (mkRecord "01/02/23" "" "Grocery Store Ref: 999"
                   (Some 150.0%float) None None "" 1%Z
          :: tail).
Proof.
  apply (grocery_scenario
           [mkWord "Ref:" 100 312; mkWord "150.00" 380 300;
            mkWord "Store" 140 300; mkWord "02/02/23" 40 324;
            mkWord "01/02/23" 40 300; mkWord "Cafe" 100 324;
            mkWord "Grocery" 100 300; mkWord "999" 125 312]
           (mkLine 324 [mkWord "02/02/23" 40 324; mkWord "Cafe" 100 324])
           []).
  - reflexivity.
  - reflexivity.
Defined.

(** The whole table of that page. *)
Example grocery_scenario_table :
  extract_statement_records
    [[mkWord "Ref:" 100 312; mkWord "150.00" 380 300;
      mkWord "Store" 140 300; mkWord "02/02/23" 40 324;
      mkWord "01/02/23" 40 300; mkWord "Cafe" 100 324;
      mkWord "Grocery" 100 300; mkWord "999" 125 312]]
  = Ok [mkRecord "01/02/23" "" "Grocery Store Ref: 999"
                 (Some 150.0%float) None None "" 1%Z;
        mkRecord "02/02/23" "" "Cafe" None None None "" 1%Z].
Proof. vm_compute. reflexivity. Qed.

(** * Further properties *)

(** ** The table against the records *)

Lemma mapM_parse_amount_each (xs : list string) :
  exists rs,
    mapM _parse_amount xs = Ok rs
    /\ Forall2 (fun x r => _parse_amount x = Ok r) xs rs.
Proof.
  induction xs as [|x xs (rs & Hrs & Hall)];
    [exists []; split; [reflexivity|constructor]|].
  destruct (parse_amount_returns x) as (r & Hr).
  exists (r :: rs). simpl. rewrite Hr, Hrs. simpl.
  split; [reflexivity|constructor; assumption].
Qed.

Lemma with_amounts_rows (records : list (record string)) :
  forall ws ds bs : list (option float),
    Forall2 (fun x r => _parse_amount x = Ok r) (map Withdrawal records) ws ->
    Forall2 (fun x r => _parse_amount x = Ok r) (map Deposit records) ds ->
    Forall2 (fun x r => _parse_amount x = Ok r) (map Balance records) bs ->
    Forall2 row_of records
            (with_amounts records (map amount_cell ws) (map amount_cell ds)
                          (map amount_cell bs)).
Proof.
  induction records as [|r records IH]; intros ws ds bs Hw Hd Hb;
    [constructor|].
  simpl in Hw, Hd, Hb.
  inversion Hw as [|? w ? ws' Hw1 Hw2]; subst.
  inversion Hd as [|? d ? ds' Hd1 Hd2]; subst.
  inversion Hb as [|? b ? bs' Hb1 Hb2]; subst.
  simpl. constructor; [|apply IH; assumption].
  unfold row_of, cell_of. simpl. repeat split; eexists; split;
    try eassumption; reflexivity.
Qed.

Lemma convert_amounts_rows (records : list (record string)) :
  exists rows,
    convert_amounts records = Ok rows /\ Forall2 row_of records rows.
Proof.
  unfold convert_amounts.
  destruct (mapM_parse_amount_each (map Withdrawal records)) as (ws & -> & Hw).
  destruct (mapM_parse_amount_each (map Deposit records)) as (ds & -> & Hd).
  destruct (mapM_parse_amount_each (map Balance records)) as (bs & -> & Hb).
  simpl. eexists. split; [reflexivity|].
  apply with_amounts_rows; assumption.
Qed.

Lemma table_rows_of_records_aux (pages : list (list word)) :
  exists rows,
    extract_statement_records pages = Ok rows
    /\ Forall2 row_of (extract_pages 1 [] pages) rows.
Proof. unfold extract_statement_records. apply convert_amounts_rows. Qed.




(** A text that reads as a NaN and a text that is no number both leave the
    cell missing; an infinity is a number. *)
Example amount_cells_sample :
  convert_amounts [mkRecord "01/02/23" "" "" "NaN" "n/a" "-Infinity" "" 1%Z]
  = Ok [mkRecord "01/02/23" "" "" None None (Some neg_infinity) "" 1%Z].
Proof. vm_compute. reflexivity. Qed.

(** What holds of every record holds of the row made from it, when it only
    depends on the text columns. *)
Lemma rows_inherit (P : record string -> Prop)
    (P' : record (option float) -> Prop)
    (records : list (record string)) (rows : list (record (option float))) :
  (forall r row, row_of r row -> P r -> P' row) ->
  Forall2 row_of records rows -> Forall P records -> Forall P' rows.
Proof.
  intros Hstep Hrows. induction Hrows as [|r row records rows Hrow _ IH];
    intros Hall; [constructor|].
  inversion Hall as [|? ? Hr Hrest]; subst.
  constructor; [exact (Hstep r row Hrow Hr)|apply IH, Hrest].
Qed.

(** ** Invariants of the scan *)

(** [Pc] is what the open record satisfies and [P] what the appended
    records satisfy: when opening a transaction establishes [Pc], a
    continuation line keeps it, closing turns it into [P] and a summary
    satisfies [P], every record a page appends satisfies [P]. *)
Lemma scan_line_invariant (Pc P : record string -> Prop) (page_idx : Z) :
  (forall c, Pc c -> P c) ->
  (forall t ws, DATE_RE t = true -> Pc (open_transaction t page_idx ws)) ->
  (forall c t ws, Pc c -> Pc (continue_record c t ws)) ->
  (forall t ts, P (summary_record (t :: ts) page_idx)) ->
  forall (st : scan_state) (l : line),
    (forall c, fst st = Some c -> Pc c) -> Forall P (snd st) ->
    (forall c, fst (scan_line page_idx st l) = Some c -> Pc c)
    /\ Forall P (snd (scan_line page_idx st l)).
Proof.
  intros Hclosed Hopen Hcont Hsum [current records] l Hcur Hrecs.
  simpl in Hcur, Hrecs.
  assert (Hclose : Forall P (close_current (current, records))).
  { unfold close_current. simpl. destruct current as [c|]; [|exact Hrecs].
    apply Forall_app. split; [exact Hrecs|].
    constructor; [apply Hclosed, Hcur; reflexivity|constructor]. }
  unfold scan_line.
  destruct (map text (sorted Qltb x0 (words l))) as [|t ts] eqn:Htexts;
    [split; assumption|].
  destruct (DATE_RE t) eqn:Hd.
  - simpl. split; [|exact Hclose]. intros c [= <-]. apply Hopen, Hd.
  - destruct (String.eqb t "Total").
    + simpl. split; [discriminate|]. apply Forall_app.
      split; [exact Hclose|]. constructor; [apply Hsum|constructor].
    + simpl. destruct current as [c|]; simpl; [|split; assumption].
      split; [|exact Hrecs]. intros c' [= <-]. apply Hcont, Hcur. reflexivity.
Qed.

Lemma extract_page_invariant (Pc P : record string -> Prop) (page_idx : Z) :
  (forall c, Pc c -> P c) ->
  (forall t ws, DATE_RE t = true -> Pc (open_transaction t page_idx ws)) ->
  (forall c t ws, Pc c -> Pc (continue_record c t ws)) ->
  (forall t ts, P (summary_record (t :: ts) page_idx)) ->
  forall (records : list (record string)) (page_words : list word),
    Forall P records -> Forall P (extract_page page_idx records page_words).
Proof.
  intros Hclosed Hopen Hcont Hsum records page_words Hrecs.
  unfold extract_page, scan_lines.
  assert (Hfold : forall lines st,
             (forall c, fst st = Some c -> Pc c) -> Forall P (snd st) ->
             Forall P (close_current
                         (fold_left (scan_line page_idx) lines st))).
  { induction lines as [|l lines IH]; intros st Hcur Hst.
    - simpl. unfold close_current. destruct (fst st) as [c|]; [|exact Hst].
      apply Forall_app. split; [exact Hst|].
      constructor; [apply Hclosed, Hcur; reflexivity|constructor].
    - simpl. destruct (scan_line_invariant Pc P page_idx Hclosed Hopen Hcont
                         Hsum st l Hcur Hst) as [Hcur' Hst'].
      apply IH; assumption. }
  apply Hfold; [discriminate|exact Hrecs].
Qed.

(** The same for properties that do not depend on the page. *)
Lemma extract_pages_invariant (Pc P : record string -> Prop) :
  (forall c, Pc c -> P c) ->
  (forall i t ws, DATE_RE t = true -> Pc (open_transaction t i ws)) ->
  (forall c t ws, Pc c -> Pc (continue_record c t ws)) ->
  (forall i t ts, P (summary_record (t :: ts) i)) ->
  forall (pages : list (list word)) (i : Z) (records : list (record string)),
    Forall P records -> Forall P (extract_pages i records pages).
Proof.
  intros Hclosed Hopen Hcont Hsum. induction pages as [|p pages IH];
    intros i records Hrecs; [exact Hrecs|].
  simpl. apply IH. apply (extract_page_invariant Pc P); auto.
Qed.

(** An invariant of the records is an invariant of the rows. *)
Lemma table_invariant (Pc P : record string -> Prop)
    (P' : record (option float) -> Prop) :
  (forall c, Pc c -> P c) ->
  (forall i t ws, DATE_RE t = true -> Pc (open_transaction t i ws)) ->
  (forall c t ws, Pc c -> Pc (continue_record c t ws)) ->
  (forall i t ts, P (summary_record (t :: ts) i)) ->
  (forall r row, row_of r row -> P r -> P' row) ->
  forall pages : list (list word),
  exists rows,
    extract_statement_records pages = Ok rows /\ Forall P' rows.
Proof.
  intros Hclosed Hopen Hcont Hsum Hrow pages.
  destruct (convert_amounts_rows (extract_pages 1 [] pages))
    as (rows & Hrows & Hall).
  exists rows. split; [exact Hrows|].
  apply (rows_inherit P P' _ rows Hrow Hall).
  apply (extract_pages_invariant Pc P); auto.
Qed.

(** ** What the records of the table always satisfy *)

Lemma fold_left_keeps {S W : Type} (f : S -> W -> S) (Q : S -> Prop) :
  (forall s w, Q s -> Q (f s w)) ->
  forall (ws : list W) (s : S), Q s -> Q (fold_left f ws s).
Proof.
  intros Hstep. induction ws as [|w ws IH]; intros s Hs; [exact Hs|].
  simpl. apply IH, Hstep, Hs.
Qed.

(** The word loops leave the description alone. *)
Lemma date_word_description (st : record string * list string) (w : word) :
  Description (fst (date_word st w)) = Description (fst st).
Proof.
  destruct st as [r parts]. unfold date_word.
  destruct (in_withdrawal (x0 w)), (in_deposit (x0 w)), (in_balance (x0 w)),
    (in_branch (x0 w)); reflexivity.
Qed.

Lemma extra_word_description (st : record string * list string) (w : word) :
  Description (fst (extra_word st w)) = Description (fst st).
Proof.
  destruct st as [r parts]. unfold extra_word.
  destruct (in_withdrawal (x0 w) && negb (truthy (Withdrawal r))),
    (in_deposit (x0 w) && negb (truthy (Deposit r))),
    (in_balance (x0 w) && negb (truthy (Balance r))),
    (in_branch (x0 w)); reflexivity.
Qed.

(** The word loops keep the branch text stripped. *)
Lemma date_word_branch (st : record string * list string) (w : word) :
  strip (Branch (fst st)) = Branch (fst st) ->
  strip (Branch (fst (date_word st w))) = Branch (fst (date_word st w)).
Proof.
  destruct st as [r parts]. unfold date_word. intros H.
  destruct (in_withdrawal (x0 w)), (in_deposit (x0 w)), (in_balance (x0 w)),
    (in_branch (x0 w)); simpl; try exact H; apply strip_idempotent.
Qed.

Lemma extra_word_branch (st : record string * list string) (w : word) :
  strip (Branch (fst st)) = Branch (fst st) ->
  strip (Branch (fst (extra_word st w))) = Branch (fst (extra_word st w)).
Proof.
  destruct st as [r parts]. unfold extra_word. intros H.
  destruct (in_withdrawal (x0 w) && negb (truthy (Withdrawal r))),
    (in_deposit (x0 w) && negb (truthy (Deposit r))),
    (in_balance (x0 w) && negb (truthy (Balance r))),
    (in_branch (x0 w)); simpl; try exact H; apply strip_idempotent.
Qed.

(** The fields of the record of an opening line that the word loop sets
    or keeps. *)
Lemma open_transaction_fields (t : string) (page_idx : Z) (ws : list word) :
  Date (open_transaction t page_idx ws) = t
  /\ Time (open_transaction t page_idx ws) = EmptyString
  /\ Page (open_transaction t page_idx ws) = page_idx
  /\ strip (Branch (open_transaction t page_idx ws))
     = Branch (open_transaction t page_idx ws)
  /\ _normalise_whitespace (Description (open_transaction t page_idx ws))
     = Description (open_transaction t page_idx ws).
Proof.
  unfold open_transaction.
  pose proof (fold_date_word_keeps (tl ws) (blank_record t page_idx, []))
    as (Hd & Ht & Hp).
  pose proof (fold_left_keeps date_word
                (fun st => strip (Branch (fst st)) = Branch (fst st))
                date_word_branch (tl ws) (blank_record t page_idx, [])
                eq_refl) as Hb.
  destruct (fold_left date_word _ _) as [r parts]. simpl in *.
  repeat split; try assumption.
  rewrite !normalise_is_spec. apply normalise_spec_idempotent.
Qed.

(** The record after a continuation line against the state of its word
    loop. *)
Lemma continue_record_loop (current : record string) (t : string)
    (ws : list word) :
  continue_record current t ws =
  match snd (extra_loop current t ws) with
  | [] => fst (extra_loop current t ws)
  | extra =>
      set_Description (fst (extra_loop current t ws))
        (_normalise_whitespace
           ((if truthy (Description current)
             then Description current ++ " " else Description current)
            ++ join " " extra)%string)
  end.
Proof.
  unfold continue_record, extra_loop. cbv zeta.
  pose proof (fold_left_keeps extra_word
                (fun st => Description (fst st) = Description current)
                (fun st w H => eq_trans (extra_word_description st w) H)
                (if TIME_RE t then tl ws else ws)
                ((if TIME_RE t then set_Time current t else current), []))
    as Hdesc.
  destruct (fold_left extra_word _ _) as [r extra]. simpl in *.
  rewrite Hdesc by (destruct (TIME_RE t); reflexivity).
  destruct extra; reflexivity.
Qed.

Lemma continue_record_branch (current : record string) (t : string)
    (ws : list word) :
  strip (Branch current) = Branch current ->
  strip (Branch (continue_record current t ws))
  = Branch (continue_record current t ws).
Proof.
  intros H. destruct (continue_record_fields current t ws)
    as (_ & _ & _ & _ & _ & Hb & _).
  rewrite Hb.
  apply (fold_left_keeps extra_word
           (fun st => strip (Branch (fst st)) = Branch (fst st))
           extra_word_branch).
  destruct (TIME_RE t); exact H.
Qed.

Lemma continue_record_normalised (current : record string) (t : string)
    (ws : list word) :
  _normalise_whitespace (Description current) = Description current ->
  _normalise_whitespace (Description (continue_record current t ws))
  = Description (continue_record current t ws).
Proof.
  intros H. rewrite continue_record_loop.
  pose proof (fold_left_keeps extra_word
                (fun st => Description (fst st) = Description current)
                (fun st w H => eq_trans (extra_word_description st w) H)
                (if TIME_RE t then tl ws else ws)
                ((if TIME_RE t then set_Time current t else current), []))
    as Hdesc.
  fold (extra_loop current t ws) in Hdesc.
  destruct (extra_loop current t ws) as [r extra]. simpl in *.
  destruct extra as [|e extra].
  - rewrite Hdesc by (destruct (TIME_RE t); reflexivity). exact H.
  - simpl. rewrite !normalise_is_spec. apply normalise_spec_idempotent.
Qed.

Lemma continue_record_page (current : record string) (t : string)
    (ws : list word) :
  Page (continue_record current t ws) = Page current.
Proof.
  destruct (continue_record_fields current t ws)
    as (_ & _ & _ & _ & _ & _ & Hp).
  rewrite Hp.
  destruct (fold_extra_word_keeps (if TIME_RE t then tl ws else ws)
              ((if TIME_RE t then set_Time current t else current), []))
    as (_ & _ & Hp' & _).
  rewrite Hp'. destruct (TIME_RE t); reflexivity.
Qed.

(** The fields of a summary that are always empty. *)
Lemma summary_record_fields (texts : list string) (page_idx : Z) :
  Date (summary_record texts page_idx) = EmptyString
  /\ Time (summary_record texts page_idx) = EmptyString
  /\ Balance (summary_record texts page_idx) = EmptyString
  /\ Branch (summary_record texts page_idx) = EmptyString
  /\ Page (summary_record texts page_idx) = page_idx
  /\ (Withdrawal (summary_record texts page_idx) = EmptyString
      \/ Deposit (summary_record texts page_idx) = EmptyString).
Proof.
  unfold summary_record.
  destruct texts as [|t0 [|kind [|count [|amount rest]]]];
    try (simpl; tauto).
  destruct (String.eqb kind "Withdrawal"); [simpl; tauto|].
  destruct (String.eqb kind "Deposit"); simpl; tauto.
Qed.

(** X2. In every row of the table the date is empty or of the form of
    [DATE_RE], and the time is empty or of the form of [TIME_RE]: no other
    text ever reaches these two columns. *)
Theorem dates_and_times_well_formed (pages : list (list word)) :
  exists rows,
    extract_statement_records pages = Ok rows
    /\ Forall (fun row =>
                 (Date row = EmptyString \/ DATE_RE (Date row) = true)
                 /\ (Time row = EmptyString \/ TIME_RE (Time row) = true))
              rows.
Proof.
  set (P := fun r : record string =>
              (Date r = EmptyString \/ DATE_RE (Date r) = true)
              /\ (Time r = EmptyString \/ TIME_RE (Time r) = true)).
  apply (table_invariant P P); unfold P.
  - auto.
  - intros i t ws Ht.
    destruct (open_transaction_fields t i ws) as (-> & -> & _). auto.
  - intros c t ws [Hd Ht].
    destruct (continue_record_keeps c t ws) as (-> & _).
    rewrite continue_record_time. split; [exact Hd|].
    destruct (TIME_RE t) eqn:Hre; auto.
  - intros i t ts.
    destruct (summary_record_fields (t :: ts) i) as (-> & -> & _). auto.
  - intros r row (-> & -> & _) H. exact H.
Qed.

(** X3. A row without a date is a summary: it has no time, no branch and
    no balance, and not both a withdrawal and a deposit. *)
Theorem undated_rows_are_summaries (pages : list (list word)) :
  exists rows,
    extract_statement_records pages = Ok rows
    /\ Forall (fun row =>
                 Date row = EmptyString ->
                 Time row = EmptyString /\ Branch row = EmptyString
                 /\ Balance row = None
                 /\ (Withdrawal row = None \/ Deposit row = None))
              rows.
Proof.
  set (Pc := fun r : record string => truthy (Date r) = true).
  set (P := fun r : record string =>
              Date r = EmptyString ->
              Time r = EmptyString /\ Branch r = EmptyString
              /\ Balance r = EmptyString
              /\ (Withdrawal r = EmptyString \/ Deposit r = EmptyString)).
  apply (table_invariant Pc P); unfold Pc, P.
  - intros c Hc Hd. rewrite Hd in Hc. discriminate.
  - intros i t ws Ht.
    destruct (open_transaction_fields t i ws) as (-> & _).
    apply DATE_RE_truthy, Ht.
  - intros c t ws Hc.
    destruct (continue_record_keeps c t ws) as (-> & _). exact Hc.
  - intros i t ts _.
    destruct (summary_record_fields (t :: ts) i) as (_ & Ht & Hb & Hbr & _ & H).
    tauto.
  - intros r row (Hd & Ht & _ & Hbr & _ & Hw & Hdp & Hb) H Hrow.
    rewrite Hd in Hrow. destruct (H Hrow) as (Ht' & Hbr' & Hb' & Hwd).
    assert (Hempty : forall cell, cell_of EmptyString cell -> cell = None).
    { intros cell (v & Hv & ->).
      assert (Hnone : _parse_amount EmptyString = Ok None) by reflexivity.
      rewrite Hnone in Hv. injection Hv as <-. reflexivity. }
    rewrite Ht, Hbr. repeat split; try assumption.
    + rewrite Hb' in Hb. apply Hempty, Hb.
    + destruct Hwd as [Hw' | Hd'].
      * left. rewrite Hw' in Hw. apply Hempty, Hw.
      * right. rewrite Hd' in Hdp. apply Hempty, Hdp.
Qed.

(** X4. The description of every row with a date is in normal form:
    [_normalise_whitespace] leaves it as it is. *)
Theorem descriptions_normalised (pages : list (list word)) :
  exists rows,
    extract_statement_records pages = Ok rows
    /\ Forall (fun row =>
                 is_transaction row = true ->
                 _normalise_whitespace (Description row) = Description row)
              rows.
Proof.
  set (Pc := fun r : record string =>
               _normalise_whitespace (Description r) = Description r).
  set (P := fun r : record string =>
              is_transaction r = true ->
              _normalise_whitespace (Description r) = Description r).
  apply (table_invariant Pc P); unfold Pc, P.
  - auto.
  - intros i t ws _. apply open_transaction_fields.
  - intros c t ws. apply continue_record_normalised.
  - intros i t ts. unfold is_transaction.
    rewrite summary_record_date. discriminate.
  - intros r row (Hd & _ & Hdesc & _) H. unfold is_transaction in *.
    rewrite Hd, Hdesc. exact H.
Qed.

(** X5. The branch of every row is stripped: it neither starts nor ends
    with whitespace. *)
Theorem branches_stripped (pages : list (list word)) :
  exists rows,
    extract_statement_records pages = Ok rows
    /\ Forall (fun row => strip (Branch row) = Branch row) rows.
Proof.
  set (P := fun r : record string => strip (Branch r) = Branch r).
  apply (table_invariant P P); unfold P.
  - auto.
  - intros i t ws _. apply open_transaction_fields.
  - intros c t ws. apply continue_record_branch.
  - intros i t ts.
    destruct (summary_record_fields (t :: ts) i) as (_ & _ & _ & -> & _).
    reflexivity.
  - intros r row (_ & _ & _ & -> & _) H. exact H.
Qed.

(** ** Pages *)

Lemma close_current_prefix (current : option (record string))
    (before records : list (record string)) :
  close_current (current, before ++ records)
  = before ++ close_current (current, records).
Proof.
  unfold close_current. simpl. destruct current; [|reflexivity].
  rewrite <- app_assoc. reflexivity.
Qed.

(** The records collected before a line only stand in front of what the
    line does. *)
Lemma scan_line_prefix (page_idx : Z) (current : option (record string))
    (before records : list (record string)) (l : line) :
  scan_line page_idx (current, before ++ records) l
  = (fst (scan_line page_idx (current, records) l),
     before ++ snd (scan_line page_idx (current, records) l)).
Proof.
  unfold scan_line.
  destruct (map text (sorted Qltb x0 (words l))) as [|t ts]; [reflexivity|].
  destruct (DATE_RE t).
  - rewrite close_current_prefix. reflexivity.
  - destruct (String.eqb t "Total").
    + rewrite close_current_prefix, <- app_assoc. reflexivity.
    + destruct current; reflexivity.
Qed.

Lemma scan_fold_prefix (page_idx : Z) (lines : list line) :
  forall (current : option (record string))
         (before records : list (record string)),
    fold_left (scan_line page_idx) lines (current, before ++ records)
    = (fst (fold_left (scan_line page_idx) lines (current, records)),
       before ++ snd (fold_left (scan_line page_idx) lines
                                (current, records))).
Proof.
  induction lines as [|l lines IH]; intros current before records;
    [reflexivity|].
  simpl fold_left. rewrite scan_line_prefix.
  destruct (scan_line page_idx (current, records) l) as [c' r'].
  apply IH.
Qed.

Lemma extract_page_prefix (page_idx : Z) (records : list (record string))
    (page_words : list word) :
  extract_page page_idx records page_words
  = records ++ extract_page page_idx [] page_words.
Proof.
  unfold extract_page, scan_lines.
  rewrite <- (app_nil_r records) at 1. rewrite scan_fold_prefix.
  destruct (fold_left _ _ _) as [c r].
  apply (close_current_prefix c records r).
Qed.

Lemma extract_pages_flat (pages : list (list word)) :
  forall (i : Z) (records : list (record string)),
    extract_pages i records pages
    = records
      ++ flat_map (fun kp => extract_page (fst kp) [] (snd kp))
                  (enumerate i pages).
Proof.
  induction pages as [|p pages IH]; intros i records; simpl;
    [rewrite app_nil_r; reflexivity|].
  rewrite IH, extract_page_prefix, <- app_assoc. reflexivity.
Qed.

Lemma extract_pages_app (first second : list (list word)) :
  forall (i : Z) (records : list (record string)),
    extract_pages i records (first ++ second)
    = extract_pages (i + Z.of_nat (length first))
                    (extract_pages i records first) second.
Proof.
  induction first as [|p first IH]; intros i records.
  - simpl. rewrite Z.add_0_r. reflexivity.
  - simpl extract_pages. rewrite IH.
    replace (i + 1 + Z.of_nat (length first))%Z
      with (i + Z.of_nat (length (p :: first)))%Z; [reflexivity|].
    simpl length. lia.
Qed.

(** X6. The pages do not influence each other: what a page appends does
    not depend on the records collected before it (no record stays open
    across a page break), so the records of a document are those of its
    pages, each scanned on its own with its number, one after the other;
    and a document in two parts gives the records of the first part
    followed by those of the second, numbered on. *)
Theorem pages_are_independent :
  (forall (page_idx : Z) (records : list (record string))
          (page_words : list word),
      extract_page page_idx records page_words
      = records ++ extract_page page_idx [] page_words)
  /\ (forall (pages : list (list word)),
         extract_pages 1 [] pages
         = flat_map (fun kp => extract_page (fst kp) [] (snd kp))
                    (enumerate 1 pages))
  /\ (forall (first second : list (list word)),
         extract_pages 1 [] (first ++ second)
         = extract_pages 1 [] first
           ++ extract_pages (1 + Z.of_nat (length first)) [] second).
Proof.
  split; [exact extract_page_prefix|]. split.
  - intros pages. apply (extract_pages_flat pages 1 []).
  - intros first second. rewrite extract_pages_app.
    rewrite (extract_pages_flat second _ (extract_pages 1 [] first)).
    rewrite (extract_pages_flat second _ []). reflexivity.
Qed.

Lemma extract_page_pages (page_idx : Z) (page_words : list word) :
  Forall (fun r => Page r = page_idx) (extract_page page_idx [] page_words).
Proof.
  apply (extract_page_invariant (fun r => Page r = page_idx)
                                (fun r => Page r = page_idx));
    [auto| | | |constructor].
  - intros t ws _. apply open_transaction_fields.
  - intros c t ws H. rewrite continue_record_page. exact H.
  - intros t ts. apply summary_record_fields.
Qed.

Lemma sorted_pages_app (i : Z) (here later : list (record string)) :
  Forall (fun r => Page r = i) here ->
  Forall (fun r => (i + 1 <= Page r)%Z) later ->
  StronglySorted Z.le (map Page later) ->
  StronglySorted Z.le (map Page (here ++ later)).
Proof.
  intros Hhere Hlater Hsorted.
  induction Hhere as [|r here Hr Hrest IH]; [exact Hsorted|].
  simpl. constructor; [exact IH|].
  rewrite map_app. apply Forall_app. split; apply Forall_map.
  - apply (Forall_impl _ (P := fun r' => Page r' = i));
      [intros r' H; lia|exact Hrest].
  - apply (Forall_impl _ (P := fun r' => (i + 1 <= Page r')%Z));
      [intros r' H; lia|exact Hlater].
Qed.

Lemma pages_in_order (pages : list (list word)) :
  forall i : Z,
    Forall (fun r => (i <= Page r < i + Z.of_nat (length pages))%Z)
           (flat_map (fun kp => extract_page (fst kp) [] (snd kp))
                     (enumerate i pages))
    /\ StronglySorted Z.le
         (map Page (flat_map (fun kp => extract_page (fst kp) [] (snd kp))
                             (enumerate i pages))).
Proof.
  induction pages as [|p pages IH]; intros i; [split; constructor|].
  destruct (IH (i + 1)%Z) as [Hrange Hsorted].
  pose proof (extract_page_pages i p) as Hhere.
  simpl enumerate. simpl flat_map. split.
  - apply Forall_app. split.
    + apply (Forall_impl _ (P := fun r => Page r = i));
        [intros r H; simpl length; lia|exact Hhere].
    + apply (Forall_impl _
               (P := fun r =>
                       (i + 1 <= Page r < i + 1 + Z.of_nat (length pages))%Z));
        [intros r H; simpl length; lia|exact Hrange].
  - apply (sorted_pages_app i); [exact Hhere| |exact Hsorted].
    apply (Forall_impl _
             (P := fun r =>
                     (i + 1 <= Page r < i + 1 + Z.of_nat (length pages))%Z));
      [intros r H; lia|exact Hrange].
Qed.

Lemma rows_pages (records : list (record string))
    (rows : list (record (option float))) :
  Forall2 row_of records rows -> map Page rows = map Page records.
Proof.
  induction 1 as [|r row records rows (_ & _ & _ & _ & Hp & _) _ IH];
    [reflexivity|].
  simpl. rewrite Hp, IH. reflexivity.
Qed.

(** X7. The page column counts the pages from 1: every row carries the
    number of the page it was read from, between 1 and the number of
    pages, and down the table the numbers never decrease. *)
Theorem page_numbers_in_order (pages : list (list word)) :
  exists rows,
    extract_statement_records pages = Ok rows
    /\ Forall (fun p => (1 <= p <= Z.of_nat (length pages))%Z)
              (map Page rows)
    /\ StronglySorted Z.le (map Page rows).
Proof.
  destruct (convert_amounts_rows (extract_pages 1 [] pages))
    as (rows & Hrows & Hall).
  exists rows. split; [exact Hrows|].
  rewrite (rows_pages _ rows Hall), (extract_pages_flat pages 1 []).
  simpl app. destruct (pages_in_order pages 1) as [Hrange Hsorted].
  split; [|exact Hsorted].
  apply Forall_map.
  apply (Forall_impl _
           (P := fun r => (1 <= Page r < 1 + Z.of_nat (length pages))%Z));
    [intros r H; lia|exact Hrange].
Qed.

(** ** The lines of a page *)

Lemma single_link_from_concat (ws : list word) :
  forall (ref : Q) (acc : list word),
    concat (map words (single_link_from ref acc ws)) = rev acc ++ ws.
Proof.
  induction ws as [|w ws IH]; intros ref acc; simpl.
  - reflexivity.
  - destruct (joins ref w); simpl.
    + rewrite IH. simpl. rewrite <- app_assoc. reflexivity.
    + rewrite IH. reflexivity.
Qed.

Lemma group_lines_concat (ws : list word) :
  concat (map words (group_lines ws)) = ws.
Proof.
  rewrite group_lines_single_link. destruct ws as [|w ws]; [reflexivity|].
  apply (single_link_from_concat ws (top w) [w]).
Qed.

Lemma single_link_from_nonempty (ws : list word) :
  forall (ref : Q) (acc : list word),
    acc <> [] ->
    Forall (fun l => words l <> []) (single_link_from ref acc ws).
Proof.
  assert (Hrev : forall acc : list word, acc <> [] -> rev acc <> []).
  { intros [|a acc] H; [congruence|]. simpl. intros Heq.
    apply app_eq_nil in Heq. destruct Heq as [_ Heq]. discriminate. }
  induction ws as [|w ws IH]; intros ref acc Hacc; simpl.
  - constructor; [apply Hrev, Hacc|constructor].
  - destruct (joins ref w).
    + apply IH. discriminate.
    + constructor; [apply Hrev, Hacc|]. apply IH. discriminate.
Qed.

Section SortFacts.

Context {A K : Type}.
Variable ltb : K -> K -> bool.
Variable key : A -> K.

Lemma insert_sorted_permutation (a : A) (l : list A) :
  Permutation (insert_sorted ltb key a l) (a :: l).
Proof.
  induction l as [|b l IH]; simpl; [apply Permutation_refl|].
  destruct (ltb (key b) (key a)); [|apply Permutation_refl].
  apply perm_trans with (b :: a :: l); [apply perm_skip, IH|apply perm_swap].
Qed.

Lemma sorted_permutation (l : list A) : Permutation (sorted ltb key l) l.
Proof.
  induction l as [|a l IH]; simpl; [apply perm_nil|].
  apply perm_trans with (a :: sorted ltb key l);
    [apply insert_sorted_permutation|apply perm_skip, IH].
Qed.

End SortFacts.

(** X8. Sorting and grouping neither lose nor repeat a word: the words of
    the lines of a page, taken line after line, are the words of the page in
    another order, no line is empty, and the grouping loop itself returns
    its input cut into consecutive pieces. *)
Theorem lines_partition_words (page_words : list word) :
  Permutation (concat (map words (page_lines page_words))) page_words
  /\ Forall (fun l => words l <> []) (page_lines page_words)
  /\ Forall (fun l => Permutation (sorted Qltb x0 (words l)) (words l))
            (page_lines page_words)
  /\ (forall ws : list word, concat (map words (group_lines ws)) = ws).
Proof.
  split; [|split; [|split]].
  - unfold page_lines. rewrite group_lines_concat. apply sorted_permutation.
  - unfold page_lines. rewrite group_lines_single_link.
    destruct (sorted pair_ltb _ page_words) as [|w ws]; [constructor|].
    apply single_link_from_nonempty. discriminate.
  - apply Forall_forall. intros l _. apply sorted_permutation.
  - exact group_lines_concat.
Qed.

(** *** Lines as bands *)

Lemma pair_ltb_top (a b : word) :
  (pair_ltb (top b, x0 b) (top a, x0 a) = true -> (top b <= top a)%Q)
  /\ (pair_ltb (top b, x0 b) (top a, x0 a) = false -> (top a <= top b)%Q).
Proof.
  unfold pair_ltb. simpl. destruct (Qeq_bool (top b) (top a)) eqn:He.
  - apply Qeq_bool_iff in He. split; intros _; rewrite He; apply Qle_refl.
  - split; intros H.
    + apply Qltb_true in H. apply Qlt_le_weak, H.
    + apply Qnot_lt_le. intros Hlt. apply Qltb_true in Hlt. congruence.
Qed.

Lemma insert_by_top (a : word) (l : list word) :
  StronglySorted (fun u v => (top u <= top v)%Q) l ->
  StronglySorted (fun u v => (top u <= top v)%Q)
                 (insert_sorted pair_ltb (fun w => (top w, x0 w)) a l).
Proof.
  induction 1 as [|b l Hl IH Hb]; simpl; [repeat constructor|].
  destruct (pair_ltb_top a b) as [Hlt Hge].
  destruct (pair_ltb (top b, x0 b) (top a, x0 a)).
  - constructor; [exact IH|].
    apply (Permutation_Forall
             (Permutation_sym (insert_sorted_permutation _ _ a l))).
    constructor; [apply Hlt; reflexivity|exact Hb].
  - constructor; [constructor; assumption|].
    constructor; [apply Hge; reflexivity|].
    apply (Forall_impl _ (P := fun v => (top b <= top v)%Q)); [|exact Hb].
    intros v Hv. apply Qle_trans with (top b); [apply Hge; reflexivity|exact Hv].
Qed.

Lemma sorted_by_top (l : list word) :
  StronglySorted (fun u v => (top u <= top v)%Q)
                 (sorted pair_ltb (fun w => (top w, x0 w)) l).
Proof.
  induction l as [|a l IH]; simpl; [constructor|]. apply insert_by_top, IH.
Qed.

Lemma joins_self (w : word) : joins (top w) w = true.
Proof.
  unfold joins, float_sub, binary64_of_Q.
  assert (H0 : Qnum (top w - top w) = 0%Z).
  { unfold Qminus, Qplus, Qopp. simpl. ring. }
  rewrite H0. reflexivity.
Qed.

Lemma single_link_from_head (ws : list word) (ref : Q) (acc : list word) :
  exists first rest,
    single_link_from ref acc ws = first :: rest /\ line_top first = ref.
Proof.
  revert acc. induction ws as [|w ws IH]; intros acc; simpl.
  - eexists. eexists. split; reflexivity.
  - destruct (joins ref w); [apply IH|].
    eexists. eexists. split; reflexivity.
Qed.

(** On words in the order of their tops, the lines are bands down the
    page. *)
Lemma single_link_from_bands (ws : list word) :
  forall (ref : Q) (acc : list word),
    Forall (fun w => (ref <= top w)%Q /\ joins ref w = true) acc ->
    StronglySorted (fun u v => (top u <= top v)%Q) ws ->
    Forall (fun w => (ref <= top w)%Q) ws ->
    Forall banded (single_link_from ref acc ws)
    /\ Sorted separated (single_link_from ref acc ws)
    /\ Forall (fun l => (ref <= line_top l)%Q) (single_link_from ref acc ws).
Proof.
  induction ws as [|w ws IH]; intros ref acc Hacc Hsorted Hfrom; simpl.
  - split; [|split].
    + constructor; [|constructor]. unfold banded. simpl.
      apply Forall_rev, Hacc.
    + repeat constructor.
    + constructor; [apply Qle_refl|constructor].
  - inversion Hsorted as [|? ? Hws Hw]; subst.
    inversion Hfrom as [|? ? Hrw Hrws]; subst.
    destruct (joins ref w) eqn:Hj.
    + apply IH; [|exact Hws|exact Hrws].
      constructor; [split; assumption|exact Hacc].
    + destruct (IH (top w) [w]) as (Hb & Hs & Hf); [|exact Hws|exact Hw|].
      { constructor; [|constructor].
        split; [apply Qle_refl|apply joins_self]. }
      split; [|split].
      * constructor; [|exact Hb]. unfold banded. simpl.
        apply Forall_rev, Hacc.
      * constructor; [exact Hs|].
        destruct (single_link_from_head ws (top w) [w])
          as (first & rest & -> & Hfirst).
        constructor. unfold separated. simpl. rewrite Hfirst.
        split; [exact Hrw|]. rewrite group_test_joins, Hj. reflexivity.
      * constructor; [apply Qle_refl|].
        apply (Forall_impl _ (P := fun l => (top w <= line_top l)%Q));
          [|exact Hf].
        intros l Hl. apply Qle_trans with (top w); assumption.
Qed.

Lemma single_link_from_descending (ws : list word) :
  forall (ref : Q) (acc : list word),
    StronglySorted (fun u v => (top u <= top v)%Q) ws ->
    Forall (fun w => (ref <= top w)%Q) ws ->
    StronglySorted (fun l1 l2 => (line_top l1 <= line_top l2)%Q)
                   (single_link_from ref acc ws)
    /\ Forall (fun l => (ref <= line_top l)%Q) (single_link_from ref acc ws).
Proof.
  induction ws as [|w ws IH]; intros ref acc Hsorted Hfrom; simpl.
  - split; [repeat constructor|]. constructor; [apply Qle_refl|constructor].
  - inversion Hsorted as [|? ? Hws Hw]; subst.
    inversion Hfrom as [|? ? Hrw Hrws]; subst.
    destruct (joins ref w); [apply IH; assumption|].
    destruct (IH (top w) [w] Hws Hw) as [Hs Hf].
    assert (Hall : Forall (fun l => (ref <= line_top l)%Q)
                          (single_link_from (top w) [w] ws)).
    { apply (Forall_impl _ (P := fun l => (top w <= line_top l)%Q));
        [|exact Hf].
      intros l Hl. apply Qle_trans with (top w); assumption. }
    split.
    + constructor; [exact Hs|exact Hall].
    + constructor; [apply Qle_refl|exact Hall].
Qed.

(** X9. The lines of a page are bands down the page: every word of a line
    lies at or below the reference of its line and within the tolerance of
    it; every line starts at or below the line before it and beyond the
    tolerance of that line's reference; and the references never go back
    up the page.  The tolerance is measured as the grouping loop does, on
    the binary64 difference. *)
Theorem lines_are_bands (page_words : list word) :
  Forall banded (page_lines page_words)
  /\ Sorted separated (page_lines page_words)
  /\ StronglySorted (fun l1 l2 => (line_top l1 <= line_top l2)%Q)
                    (page_lines page_words).
Proof.
  unfold page_lines. rewrite group_lines_single_link.
  pose proof (sorted_by_top page_words) as Hsorted.
  destruct (sorted pair_ltb _ page_words) as [|w ws];
    [repeat split; constructor|].
  inversion Hsorted as [|? ? Hws Hw]; subst. simpl single_link.
  destruct (single_link_from_bands ws (top w) [w]) as (Hb & Hs & _);
    [|exact Hws|exact Hw|].
  { constructor; [|constructor].
    split; [apply Qle_refl|apply joins_self]. }
  destruct (single_link_from_descending ws (top w) [w] Hws Hw) as [Hd _].
  repeat split; assumption.
Qed.

(** ** Lines that belong to no record *)

Lemma scan_orphan (page_idx : Z) (records : list (record string))
    (l : line) :
  is_continuation l = true ->
  scan_line page_idx (None, records) l = (None, records).
Proof.
  intros H. apply is_continuation_kinds in H. destruct H as [Hd Ht].
  destruct (line_kind l)
    as [(Hf & _)
       |[(t & Hf & Hre & Hd' & _)
        |[(t & Hf & Hre & Heq & _ & Ht')
         |(t & Hf & Hre & Heq & _)]]];
    try congruence.
  - apply scan_line_no_words, Hf.
  - rewrite (scan_line_other page_idx _ l t Hf Hre Heq). reflexivity.
Qed.

Lemma scan_orphans (page_idx : Z) (records : list (record string))
    (lines : list line) :
  Forall (fun l => is_continuation l = true) lines ->
  fold_left (scan_line page_idx) lines (None, records) = (None, records).
Proof.
  induction 1 as [|l lines Hl _ IH]; [reflexivity|].
  simpl. rewrite (scan_orphan page_idx records l Hl). exact IH.
Qed.

Lemma total_led_closes (page_idx : Z) (st : scan_state) (l : line) :
  total_led l = true -> fst (scan_line page_idx st l) = None.
Proof.
  intros H. destruct (line_kind l)
    as [(Hf & Hd & Ht)
       |[(t & Hf & Hre & Hd & Ht)
        |[(t & Hf & Hre & Heq & Hd & Ht)
         |(t & Hf & Hre & Heq & Hd & Ht)]]];
    try congruence.
  rewrite (scan_line_total page_idx st l t Hf Hre Heq). reflexivity.
Qed.

(** X10. A summary is never continued and a page never starts in the
    middle of a record: the lines that follow a Total line, and the lines
    at the head of a page, up to the next Date or Total line, change
    nothing; the scan goes on as if they were not there. *)
Theorem orphan_lines_are_dropped (page_idx : Z) (orphans rest : list line) :
  Forall (fun l => is_continuation l = true) orphans ->
  (forall (records : list (record string)),
      scan_lines page_idx records (orphans ++ rest)
      = scan_lines page_idx records rest)
  /\ (forall (st : scan_state) (l : line),
         total_led l = true ->
         fold_left (scan_line page_idx) (l :: orphans ++ rest) st
         = fold_left (scan_line page_idx) (l :: rest) st).
Proof.
  intros Horphans. split.
  - intros records. unfold scan_lines.
    rewrite fold_left_app, (scan_orphans page_idx records orphans Horphans).
    reflexivity.
  - intros st l Hl. simpl fold_left.
    pose proof (total_led_closes page_idx st l Hl) as Hnone.
    destruct (scan_line page_idx st l) as [c records]. simpl in Hnone.
    subst c. rewrite fold_left_app,
      (scan_orphans page_idx records orphans Horphans).
    reflexivity.
Qed.

(** A Total line followed by a line of text and a time line, at the end of
    a page. *)
Lemma orphan_lines_are_dropped_witness :
  fold_left (scan_line 1)
    (mkLine 340 [mkWord "Total" 40 340; mkWord "fees" 80 340]
     :: [mkLine 352 [mkWord "carried" 40 352; mkWord "9.99" 380 352];
         mkLine 364 [mkWord "10:30" 40 364]] ++ [])
    (None, [])
  = fold_left (scan_line 1)
      [mkLine 340 [mkWord "Total" 40 340; mkWord "fees" 80 340]]
      (None, []).
Proof.
  apply (orphan_lines_are_dropped 1
           [mkLine 352 [mkWord "carried" 40 352; mkWord "9.99" 380 352];
            mkLine 364 [mkWord "10:30" 40 364]] []).
  - repeat constructor.
  - reflexivity.
Defined.

Lemma first_text_of_word (l : line) (t : string) :
  first_text l = Some t -> exists w, In w (words l) /\ text w = t.
Proof.
  unfold first_text. intros H.
  pose proof (sorted_permutation Qltb x0 (words l)) as Hperm.
  destruct (sorted Qltb x0 (words l)) as [|w ws]; [discriminate|].
  simpl in H. injection H as H. exists w. split; [|exact H].
  apply (Permutation_in _ Hperm). left. reflexivity.
Qed.

Lemma page_line_word (page_words : list word) (l : line) (w : word) :
  In l (page_lines page_words) -> In w (words l) -> In w page_words.
Proof.
  intros Hl Hw.
  apply (Permutation_in _ (sorted_permutation pair_ltb
                             (fun w => (top w, x0 w)) page_words)).
  rewrite <- (group_lines_concat (sorted pair_ltb _ page_words)).
  apply in_concat. exists (words l). split; [|exact Hw].
  apply in_map, Hl.
Qed.

(** X11. A page on which no word is a date and no word is "Total" adds
    nothing to the records, whatever else it holds; so does an empty
    page. *)
Theorem page_without_date_or_total (page_idx : Z)
    (records : list (record string)) (page_words : list word) :
  Forall (fun w => DATE_RE (text w) = false
                   /\ String.eqb (text w) "Total" = false) page_words ->
  extract_page page_idx records page_words = records.
Proof.
  intros Hwords. unfold extract_page, scan_lines.
  rewrite scan_orphans; [reflexivity|].
  apply Forall_forall. intros l Hl.
  unfold is_continuation, date_led, total_led.
  destruct (first_text l) as [t|] eqn:Hf; [|reflexivity].
  destruct (first_text_of_word l t Hf) as (w & Hw & <-).
  pose proof (page_line_word page_words l w Hl Hw) as Hin.
  rewrite Forall_forall in Hwords. destruct (Hwords w Hin) as [-> ->].
  reflexivity.
Qed.

(** A page of headings, with a time and an amount. *)
Lemma page_without_date_or_total_witness :
  extract_page 3 [mkRecord "01/02/23" "" "Cafe" "" "" "" "" 2%Z]
    [mkWord "Statement" 40 230; mkWord "of" 100 230;
     mkWord "10:30" 40 250; mkWord "150.00" 380 250]
  = [mkRecord "01/02/23" "" "Cafe" "" "" "" "" 2%Z].
Proof.
  apply (page_without_date_or_total 3
           [mkRecord "01/02/23" "" "Cafe" "" "" "" "" 2%Z]
           [mkWord "Statement" 40 230; mkWord "of" 100 230;
            mkWord "10:30" 40 250; mkWord "150.00" 380 250]).
  repeat constructor.
Defined.

(** ** Amounts on a continuation line *)

Lemma truthy_false (s : string) : truthy s = false -> s = EmptyString.
Proof. destruct s; [reflexivity|discriminate]. Qed.

(** One word of a continuation line, seen from each amount field: the
    field stays as it is unless it is empty and the word is in its band. *)
Lemma extra_word_amounts (r : record string) (d : list string) (w : word) :
  Withdrawal (fst (extra_word (r, d) w))
  = (if in_withdrawal (x0 w) && negb (truthy (Withdrawal r))
     then text w else Withdrawal r)
  /\ Deposit (fst (extra_word (r, d) w))
     = (if in_deposit (x0 w) && negb (truthy (Deposit r))
        then text w else Deposit r)
  /\ Balance (fst (extra_word (r, d) w))
     = (if in_balance (x0 w) && negb (truthy (Balance r))
        then text w else Balance r).
Proof.
  unfold extra_word.
  destruct (amount_bands_disjoint (x0 w)) as [Hwd Hdb].
  destruct (in_withdrawal (x0 w)) eqn:Hw.
  - destruct (Hwd eq_refl) as [-> ->]. simpl.
    destruct (truthy (Withdrawal r)); simpl;
      destruct (in_branch (x0 w)); simpl; tauto.
  - simpl. destruct (in_deposit (x0 w)) eqn:Hd.
    + rewrite (Hdb eq_refl). simpl.
      destruct (truthy (Deposit r)); simpl;
        destruct (in_branch (x0 w)); simpl; tauto.
    + simpl. destruct (in_balance (x0 w) && negb (truthy (Balance r)));
        simpl; [tauto|]. destruct (in_branch (x0 w)); simpl; tauto.
Qed.

Lemma first_truthy_step (old new : string) (b : bool) (rest : list string) :
  first_truthy ((if b && negb (truthy old) then new else old) :: rest)
  = first_truthy (old :: (if b then new :: rest else rest)).
Proof.
  destruct b; [|reflexivity]. destruct old; reflexivity.
Qed.

Lemma fold_extra_word_amounts (ws : list word) :
  forall (r0 : record string) (d0 : list string),
    Withdrawal (fst (fold_left extra_word ws (r0, d0)))
    = first_truthy
        (Withdrawal r0
         :: map text (filter (fun w => in_withdrawal (x0 w)) ws))
    /\ Deposit (fst (fold_left extra_word ws (r0, d0)))
       = first_truthy
           (Deposit r0 :: map text (filter (fun w => in_deposit (x0 w)) ws))
    /\ Balance (fst (fold_left extra_word ws (r0, d0)))
       = first_truthy
           (Balance r0 :: map text (filter (fun w => in_balance (x0 w)) ws)).
Proof.
  induction ws as [|w ws IH]; intros r0 d0.
  - simpl. repeat split; destruct (truthy _) eqn:H; try reflexivity;
      apply truthy_false, H.
  - change (fold_left extra_word (w :: ws) (r0, d0))
      with (fold_left extra_word ws (extra_word (r0, d0) w)).
    cbn [filter].
    destruct (extra_word (r0, d0) w) as [r1 d1] eqn:Hstep.
    destruct (IH r1 d1) as (Hw & Hd & Hb). rewrite Hw, Hd, Hb.
    destruct (extra_word_amounts r0 d0 w) as (Hw1 & Hd1 & Hb1).
    rewrite Hstep in Hw1, Hd1, Hb1. simpl in Hw1, Hd1, Hb1.
    rewrite Hw1, Hd1, Hb1, !first_truthy_step.
    destruct (in_withdrawal (x0 w)), (in_deposit (x0 w)),
      (in_balance (x0 w)); repeat split; reflexivity.
Qed.

(** X12. On a continuation line the first value wins within the line too:
    after the line each amount field holds the first non-empty text among
    its earlier value and the texts of the words of the line in its band,
    left to right (the leading time apart), so an empty field takes the
    leftmost such word and never a later one. *)
Theorem continuation_first_amount_wins (current : record string)
    (first_text : string) (line_words : list word) :
  let rest := if TIME_RE first_text then tl line_words else line_words in
  Withdrawal (continue_record current first_text line_words)
  = first_truthy
      (Withdrawal current
       :: map text (filter (fun w => in_withdrawal (x0 w)) rest))
  /\ Deposit (continue_record current first_text line_words)
     = first_truthy
         (Deposit current
          :: map text (filter (fun w => in_deposit (x0 w)) rest))
  /\ Balance (continue_record current first_text line_words)
     = first_truthy
         (Balance current
          :: map text (filter (fun w => in_balance (x0 w)) rest)).
Proof.
  cbv zeta.
  destruct (continue_record_fields current first_text line_words)
    as (_ & _ & Hw & Hd & Hb & _).
  rewrite Hw, Hd, Hb.
  destruct (fold_extra_word_amounts
              (if TIME_RE first_text then tl line_words else line_words)
              (if TIME_RE first_text then set_Time current first_text
               else current) [])
    as (Hw' & Hd' & Hb').
  rewrite Hw', Hd', Hb'. destruct (TIME_RE first_text); tauto.
Qed.

(** ** Descriptions *)

Lemma starts_word_has_word (s : string) :
  starts_word s = true -> exists w ws, words_of s = w :: ws.
Proof.
  destruct s as [|c s]; [discriminate|]. simpl starts_word. intros Hc.
  apply negb_true_iff in Hc. rewrite words_of_cons, Hc.
  destruct (starts_word s); [destruct (words_of s)|]; eexists; eexists;
    reflexivity.
Qed.

(** The words of two texts with a space between them. *)
Lemma words_of_app_space (a b : string) :
  words_of (a ++ String " " b)%string = words_of a ++ words_of b.
Proof.
  induction a as [|c a IH]; [reflexivity|].
  change (String c a ++ String " " b)%string
    with (String c (a ++ String " " b)%string).
  rewrite !words_of_cons. destruct (is_sep c); [exact IH|].
  rewrite IH. destruct a as [|c' a]; [reflexivity|].
  change (starts_word (String c' a ++ String " " b)%string)
    with (starts_word (String c' a)).
  destruct (starts_word (String c' a)) eqn:Hs; [|reflexivity].
  destruct (starts_word_has_word _ Hs) as (w & ws & ->). reflexivity.
Qed.

Lemma words_of_join_parts (parts : list string) :
  words_of (join " " parts) = flat_map words_of parts.
Proof.
  induction parts as [|p parts IH]; [reflexivity|].
  destruct parts as [|q parts].
  - simpl. rewrite app_nil_r. reflexivity.
  - change (join " " (p :: q :: parts))
      with (p ++ String " " (join " " (q :: parts)))%string.
    rewrite words_of_app_space, IH. reflexivity.
Qed.

(** The description parts of an opening line are the texts of the words
    after the date that are in no band, left to right. *)
Lemma fold_date_word_parts (ws : list word) :
  forall (r0 : record string) (d0 : list string),
    snd (fold_left date_word ws (r0, d0))
    = d0 ++ map text (filter (fun w => in_description (x0 w)) ws).
Proof.
  induction ws as [|w ws IH]; intros r0 d0;
    [simpl; rewrite app_nil_r; reflexivity|].
  change (fold_left date_word (w :: ws) (r0, d0))
    with (fold_left date_word ws (date_word (r0, d0) w)).
  destruct (date_word (r0, d0) w) as [r1 d1] eqn:Hstep.
  rewrite IH. cbn [filter]. unfold date_word, in_description in *.
  destruct (in_withdrawal (x0 w)), (in_deposit (x0 w)), (in_balance (x0 w)),
    (in_branch (x0 w)); injection Hstep as <- <-; simpl;
    rewrite <- ?app_assoc; reflexivity.
Qed.

(** X13. The description on an opening line is made of the words after the
    date that lie in no amount band and not beyond the branch threshold:
    it is their texts from left to right, cut at tildes and whitespace,
    with single spaces between the pieces. *)
Theorem opening_line_description (first_text : string) (page_idx : Z)
    (line_words : list word) :
  Description (open_transaction first_text page_idx line_words)
  = join " "
      (flat_map words_of
         (map text (filter (fun w => in_description (x0 w))
                           (tl line_words)))).
Proof.
  unfold open_transaction.
  pose proof (fold_date_word_parts (tl line_words)
                (blank_record first_text page_idx) []) as Hparts.
  destruct (fold_left date_word _ _) as [r parts]. simpl in *. subst parts.
  rewrite normalise_is_spec. unfold normalise_spec.
  rewrite words_of_join_parts. reflexivity.
Qed.

(** X14. A continuation line only adds to the description, at its end: when
    the line leaves description parts, the new description is the words of
    the old one followed by the words of the parts, with single spaces;
    when it leaves none, the description is untouched. *)
Theorem continuation_extends_description (current : record string)
    (first_text : string) (line_words : list word) :
  Description (continue_record current first_text line_words)
  = match snd (extra_loop current first_text line_words) with
    | [] => Description current
    | extra =>
        join " " (words_of (Description current) ++ flat_map words_of extra)
    end.
Proof.
  rewrite continue_record_loop.
  pose proof (fold_left_keeps extra_word
                (fun st => Description (fst st) = Description current)
                (fun st w H => eq_trans (extra_word_description st w) H)
                (if TIME_RE first_text then tl line_words else line_words)
                ((if TIME_RE first_text then set_Time current first_text
                  else current), [])) as Hdesc.
  fold (extra_loop current first_text line_words) in Hdesc.
  destruct (extra_loop current first_text line_words) as [r extra].
  cbn [fst snd] in *. destruct extra as [|e extra].
  - apply Hdesc. destruct (TIME_RE first_text); reflexivity.
  - rewrite <- (words_of_join_parts (e :: extra)).
    set (j := join " " (e :: extra)).
    unfold set_Description. cbn [Description].
    rewrite normalise_is_spec. unfold normalise_spec. f_equal.
    destruct (Description current) as [|c d]; [reflexivity|].
    cbn [truthy].
    replace ((String c d ++ " ") ++ j)%string
      with (String c d ++ String " " j)%string.
    + apply words_of_app_space.
    + generalize (String c d). intros s.
      induction s as [|c0 s IH]; [reflexivity|]. simpl. rewrite IH.
      reflexivity.
Qed.

(** ** Commas in amounts *)

Lemma lstrip_rstrip (s : string) : lstrip (rstrip s) = rstrip (lstrip s).
Proof.
  induction s as [|c s IH]; [reflexivity|].
  destruct (isspace c) eqn:Hc.
  - rewrite (rstrip_cons_space c s Hc). cbn [lstrip]. rewrite Hc, <- IH.
    destruct (rstrip s) as [|d r]; [reflexivity|].
    cbn [truthy lstrip]. rewrite Hc. reflexivity.
  - rewrite (rstrip_cons_word c s Hc). cbn [lstrip]. rewrite Hc.
    symmetry. apply (rstrip_cons_word c s Hc).
Qed.

Lemma replace_comma_cons (c : ascii) (s : string) :
  replace "," "" (String c s)
  = if Ascii.eqb c "," then replace "," "" s
    else String c (replace "," "" s).
Proof. reflexivity. Qed.

Lemma space_not_comma (c : ascii) :
  isspace c = true -> Ascii.eqb c "," = false.
Proof.
  destruct (Ascii.eqb c ",") eqn:H; [|reflexivity].
  apply Ascii.eqb_eq in H. subst c. discriminate.
Qed.

Lemma lstrip_without_commas (s : string) :
  lstrip (replace "," "" (lstrip s)) = lstrip (replace "," "" s).
Proof.
  induction s as [|c s IH]; [reflexivity|].
  cbn [lstrip]. destruct (isspace c) eqn:Hc; [|reflexivity].
  rewrite IH, replace_comma_cons, (space_not_comma c Hc).
  cbn [lstrip]. rewrite Hc. reflexivity.
Qed.

(** [rstrip] of a text with a first character only depends on the
    [rstrip] of the rest. *)
Lemma rstrip_cons_congr (c : ascii) (s t : string) :
  rstrip s = rstrip t -> rstrip (String c s) = rstrip (String c t).
Proof. intros H. simpl. rewrite H. reflexivity. Qed.

Lemma rstrip_without_commas (s : string) :
  rstrip (replace "," "" (rstrip s)) = rstrip (replace "," "" s).
Proof.
  induction s as [|c s IH]; [reflexivity|].
  rewrite (replace_comma_cons c s).
  destruct (isspace c) eqn:Hc.
  - rewrite (space_not_comma c Hc), (rstrip_cons_space c s Hc).
    destruct (rstrip s) as [|d r] eqn:Hr.
    + cbn [truthy]. rewrite (rstrip_cons_space c _ Hc), <- IH. reflexivity.
    + cbn [truthy]. rewrite replace_comma_cons, (space_not_comma c Hc).
      apply rstrip_cons_congr, IH.
  - rewrite (rstrip_cons_word c s Hc), replace_comma_cons.
    destruct (Ascii.eqb c ","); [exact IH|].
    apply rstrip_cons_congr, IH.
Qed.

Lemma strip_without_commas (s : string) :
  strip (replace "," "" (strip s)) = strip (replace "," "" s).
Proof.
  unfold strip.
  rewrite <- (lstrip_rstrip (replace "," "" (rstrip (lstrip s)))).
  rewrite rstrip_without_commas, lstrip_rstrip.
  rewrite lstrip_without_commas. reflexivity.
Qed.

Lemma replace_comma_twice (s : string) :
  replace "," "" (replace "," "" s) = replace "," "" s.
Proof.
  induction s as [|c s IH]; [reflexivity|].
  rewrite replace_comma_cons. destruct (Ascii.eqb c ",") eqn:Hc; [exact IH|].
  rewrite replace_comma_cons, Hc, IH. reflexivity.
Qed.

(** [Decimal] only sees its argument stripped. *)
Lemma Decimal_stripped (a b : string) :
  strip a = strip b -> PyDecimal.Decimal a = PyDecimal.Decimal b.
Proof. intros H. unfold PyDecimal.Decimal. rewrite H. reflexivity. Qed.

(** X15. Commas do not count, wherever they stand in the text: removing
    them before the call does not change what [_parse_amount] returns. *)
Theorem parse_amount_ignores_commas (s : string) :
  _parse_amount (replace "," "" s) = _parse_amount s.
Proof.
  unfold _parse_amount.
  pose proof (strip_without_commas s) as Hs.
  destruct (strip s) as [|c v] eqn:Hv.
  - change (strip (replace "," "" EmptyString)) with EmptyString in Hs.
    rewrite <- Hs. reflexivity.
  - cbn [truthy negb].
    assert (Hdec :
      PyDecimal.Decimal (replace "," "" (String c v))
      = PyDecimal.Decimal (replace "," "" s))
      by (apply Decimal_stripped, Hs).
    destruct (strip (replace "," "" s)) as [|c' v'] eqn:Hv'.
    + cbn [truthy negb]. rewrite Hdec.
      rewrite (Decimal_stripped (replace "," "" s) EmptyString)
        by (rewrite Hv'; reflexivity).
      reflexivity.
    + cbn [truthy negb]. rewrite Hdec.
      rewrite (Decimal_stripped (replace "," "" (String c' v'))
                 (replace "," "" s)); [reflexivity|].
      rewrite <- Hv', strip_without_commas, replace_comma_twice.
      reflexivity.
Qed.

(** ** More on normalisation *)

Lemma normalise_spec_length (s : string) :
  String.length (normalise_spec s) <= String.length s
  /\ (starts_word s = false -> words_of s <> [] ->
      S (String.length (normalise_spec s)) <= String.length s).
Proof.
  unfold normalise_spec. induction s as [|c s [IH1 IH2]];
    [split; [apply Nat.le_refl|intros _ H; exfalso; apply H; reflexivity]|].
  rewrite words_of_cons. cbn [starts_word String.length].
  destruct (is_sep c); cbn [negb].
  - split; [lia|intros _ _; lia].
  - split; [|discriminate].
    destruct (starts_word s) eqn:Hs.
    + destruct (words_of s) as [|w ws]; [simpl; lia|].
      rewrite join_cons_char. cbn [String.length]. lia.
    + destruct (words_of s) as [|w ws] eqn:Hw; [simpl; lia|].
      change (join " " (String c EmptyString :: w :: ws))
        with (String c (String " " (join " " (w :: ws)))).
      cbn [String.length]. specialize (IH2 eq_refl).
      assert (w :: ws <> []) by discriminate. specialize (IH2 H). lia.
Qed.

Lemma join_empty_words (ws : list string) :
  Forall (fun w => is_word w = true) ws ->
  join EmptyString ws = EmptyString -> ws = [].
Proof.
  intros Hws Hj. destruct ws as [|w ws]; [reflexivity|].
  inversion Hws as [|? ? Hw _]; subst.
  unfold is_word in Hw. apply andb_true_iff in Hw. destruct Hw as [Hw _].
  destruct w; [discriminate|]. destruct ws; discriminate.
Qed.

(** X16. Normalisation keeps the words of a text and never makes it
    longer; it returns the empty text exactly for the texts made of
    tildes and whitespace only; and normalising two texts before joining
    them with a space gives, once normalised, what the texts joined as
    they are give. *)
Theorem normalise_whitespace_words (s : string) :
  words_of (_normalise_whitespace s) = words_of s
  /\ String.length (_normalise_whitespace s) <= String.length s
  /\ (_normalise_whitespace s = EmptyString <-> without_seps s = EmptyString)
  /\ (forall t : string,
         _normalise_whitespace
           (_normalise_whitespace s ++ " " ++ _normalise_whitespace t)%string
         = _normalise_whitespace (s ++ " " ++ t)%string).
Proof.
  split; [|split; [|split]].
  - rewrite normalise_is_spec. unfold normalise_spec.
    apply words_of_join, words_of_are_words.
  - rewrite normalise_is_spec. apply normalise_spec_length.
  - rewrite normalise_is_spec, <- words_of_characters. unfold normalise_spec.
    pose proof (words_of_are_words s) as Hw.
    destruct (words_of s) as [|w ws] eqn:Hws; [simpl; tauto|].
    inversion Hw as [|? ? Hw1 _]; subst. split; intros H.
    + pose proof (join_words_truthy w ws Hw1) as Ht. rewrite H in Ht.
      discriminate.
    + pose proof (join_empty_words (w :: ws) Hw H). discriminate.
  - intros t. rewrite !(normalise_is_spec (_ ++ _)). unfold normalise_spec.
    change (" " ++ _normalise_whitespace t)%string
      with (String " " (_normalise_whitespace t)).
    change (" " ++ t)%string with (String " " t).
    rewrite !words_of_app_space, !normalise_is_spec. unfold normalise_spec.
    rewrite !words_of_join by apply words_of_are_words. reflexivity.
Qed.
(** ** The command line *)

(** X17. How a run of [main] ends.  When [parse_args] exits, the run exits
    with the same status.  When it returns a namespace without an output
    path (a missing and an empty path count alike), the run exits with
    status 2, whatever the document is.  The run exits in these two cases
    only, and leaves the files as they are.  It never ends with an
    exception of the extraction.  When the document cannot be read the
    exception goes through and no file is written.  When the CSV writer
    raises, the spreadsheet writer is not called.  When both paths are
    given and both writers succeed, both receive the table of the
    document, the CSV writer first. *)
Theorem main_outcome (E files : Type)
    (parse_args : list string -> Z + args)
    (open_words : string -> option string -> E + list (list word))
    (to_csv :
       list (record (option float)) -> string -> files -> files * option E)
    (to_excel :
       list (record (option float)) -> string -> string -> files
       -> files * option E)
    (argv : list string) (fs : files) :
  let run := main parse_args open_words to_csv to_excel argv fs in
  (forall status, parse_args argv = inl status -> run = Exit status fs)
  /\ (forall a,
         parse_args argv = inr a ->
         given (csv a) = false -> given (excel a) = false ->
         run = Exit 2 fs)
  /\ (forall status fs',
         run = Exit status fs' ->
         fs' = fs
         /\ (parse_args argv = inl status
             \/ exists a,
                  parse_args argv = inr a /\ status = 2%Z
                  /\ given (csv a) = false /\ given (excel a) = false))
  /\ (forall e fs', run <> Internal e fs')
  /\ (forall a,
         parse_args argv = inr a ->
         given (csv a) || given (excel a) = true ->
         forall e,
           open_words (pdf_path a) (password a) = inl e ->
           run = External e fs)
  /\ (forall a,
         parse_args argv = inr a ->
         given (csv a) = true ->
         forall pages df fs1 e,
           open_words (pdf_path a) (password a) = inr pages ->
           extract_statement_records pages = Ok df ->
           to_csv df (path_of (csv a)) fs = (fs1, Some e) ->
           run = External e fs1)
  /\ (forall a,
         parse_args argv = inr a ->
         given (csv a) = true -> given (excel a) = true ->
         forall pages df fs1 fs2,
           open_words (pdf_path a) (password a) = inr pages ->
           extract_statement_records pages = Ok df ->
           to_csv df (path_of (csv a)) fs = (fs1, None) ->
           to_excel df (path_of (excel a)) (sheet_name a) fs1 = (fs2, None) ->
           run = Returned fs2).
Proof.
  cbv zeta. unfold main.
  destruct (parse_args argv) as [status0|a] eqn:Hparse.
  { split; [intros status H; injection H as <-; reflexivity|].
    split; [intros a H; discriminate|].
    split.
    { intros status fs' H. injection H as <- <-.
      split; [reflexivity | left; reflexivity]. }
    split; [intros e fs'; discriminate|].
    repeat split; intros a H; discriminate. }
  assert (Hrun : forall (b1 b2 : bool) (o : outcome E files),
             match open_words (pdf_path a) (password a) with
             | inl e => External e fs
             | inr pages =>
                 match extract_statement_records pages with
                 | Raise e => Internal e fs
                 | Ok df =>
                     let (fs1, e1) :=
                       if b1 then to_csv df (path_of (csv a)) fs
                       else (fs, None) in
                     match e1 with
                     | Some e => External e fs1
                     | None =>
                         let (fs2, e2) :=
                           if b2
                           then to_excel df (path_of (excel a))
                                         (sheet_name a) fs1
                           else (fs1, None) in
                         match e2 with
                         | Some e => External e fs2
                         | None => Returned fs2
                         end
                     end
                 end
             end = o ->
             (forall status fs', o <> Exit status fs')
             /\ (forall e fs', o <> Internal e fs')).
  { intros b1 b2 o H.
    destruct (open_words _ _) as [e|pages];
      [subst o; split; discriminate|].
    destruct (table_rows_of_records_aux pages) as (df & Hdf & _).
    rewrite Hdf in H.
    destruct (if b1 then _ else _) as [fs1 [e1|]];
      [subst o; split; discriminate|].
    destruct (if b2 then _ else _) as [fs2 [e2|]];
      subst o; split; discriminate. }
  split; [intros status H; discriminate|].
  split; [intros a' H; injection H as <-; intros -> ->; reflexivity|].
  split.
  { intros status fs' H.
    destruct (negb (given (csv a)) && negb (given (excel a))) eqn:Hg.
    - injection H as <- <-.
      apply andb_true_iff in Hg. destruct Hg as [H1 H2].
      apply negb_true_iff in H1, H2.
      split; [reflexivity|]. right. exists a. tauto.
    - exfalso. destruct (Hrun _ _ _ H) as [Hexit _].
      apply (Hexit status fs'). reflexivity. }
  split.
  { intros e fs' H.
    destruct (negb (given (csv a)) && negb (given (excel a)));
      [discriminate|].
    destruct (Hrun _ _ _ H) as [_ Hint]. apply (Hint e fs'). reflexivity. }
  split.
  { intros a' H. injection H as <-. intros Hsome e He.
    destruct (given (csv a)), (given (excel a)); try discriminate;
      simpl; rewrite He; reflexivity. }
  split.
  - intros a' H. injection H as <-.
    intros Hcsv pages df fs1 e Hopen Hdf Hw.
    rewrite Hcsv. simpl. rewrite Hopen, Hdf, Hw. reflexivity.
  - intros a' H. injection H as <-.
    intros Hcsv Hexcel pages df fs1 fs2 Hopen Hdf Hw1 Hw2.
    rewrite Hcsv, Hexcel. simpl. rewrite Hopen, Hdf, Hw1, Hw2. reflexivity.
Qed.

(** A command line the parser rejects, and one it accepts with the
    spreadsheet path given as the empty text and no CSV path: both runs
    exit with status 2. *)
Lemma main_outcome_witness :
  let parse_args := fun argv : list string =>
    match argv with
    | [] => inl 2%Z
    | path :: _ => inr (mkArgs path None None (Some "") "Statement")
    end in
  let open_words := fun (_ : string) (_ : option string) =>
    @inr string (list (list word)) [] in
  let to_csv := fun (_ : list (record (option float))) (path : string)
                    (fs : list string) => (fs ++ [path], @None string) in
  let to_excel := fun (_ : list (record (option float))) (path _ : string)
                      (fs : list string) => (fs ++ [path], @None string) in
  main parse_args open_words to_csv to_excel [] [] = Exit 2 []
  /\ main parse_args open_words to_csv to_excel ["statement.pdf"] []
     = Exit 2 [].
Proof.
  intros parse_args open_words to_csv to_excel. split.
  - pose proof (main_outcome string (list string) parse_args open_words
                  to_csv to_excel [] []) as H.
    cbv zeta in H. destruct H as (H & _).
    apply (H 2%Z). reflexivity.
  - pose proof (main_outcome string (list string) parse_args open_words
                  to_csv to_excel ["statement.pdf"] []) as H.
    cbv zeta in H. destruct H as (_ & H & _).
    apply (H (mkArgs "statement.pdf" None None (Some "") "Statement"));
      reflexivity.
Defined.

(** ** The order of the rows *)

Lemma close_current_some (c : record string) (records : list (record string)) :
  close_current (Some c, records) = records ++ [c].
Proof. reflexivity. Qed.

Lemma close_current_none (records : list (record string)) :
  close_current (None, records) = records.
Proof. reflexivity. Qed.

Lemma scan_line_dates (page_idx : Z) (st : scan_state) (l : line) :
  map Date (close_current (scan_line page_idx st l))
  = map Date (close_current st) ++ line_date l.
Proof.
  unfold line_date.
  destruct (line_kind l)
    as [(Hf & _)
       |[(t & Hf & Hre & _)
        |[(t & Hf & Hre & Heq & _)
         |(t & Hf & Hre & Heq & _)]]];
    rewrite Hf; try rewrite Hre; try rewrite Heq.
  - rewrite scan_line_no_words by exact Hf. rewrite app_nil_r. reflexivity.
  - rewrite (scan_line_date page_idx st l t Hf Hre).
    rewrite close_current_some, map_app. cbn [map].
    rewrite open_transaction_date. reflexivity.
  - rewrite (scan_line_total page_idx st l t Hf Hre Heq).
    rewrite close_current_none, map_app. cbn [map].
    rewrite summary_record_date. reflexivity.
  - rewrite (scan_line_other page_idx st l t Hf Hre Heq).
    rewrite app_nil_r. destruct st as [[c|] records]; [|reflexivity].
    cbn [fst snd]. rewrite !close_current_some, !map_app. cbn [map].
    destruct (continue_record_keeps c t (sorted Qltb x0 (words l)))
      as (-> & _).
    reflexivity.
Qed.

Lemma scan_fold_dates (page_idx : Z) (lines : list line) :
  forall st : scan_state,
    map Date (close_current (fold_left (scan_line page_idx) lines st))
    = map Date (close_current st) ++ flat_map line_date lines.
Proof.
  induction lines as [|l lines IH]; intros st;
    [simpl; rewrite app_nil_r; reflexivity|].
  simpl. rewrite IH, scan_line_dates, <- app_assoc. reflexivity.
Qed.

(** X18. The rows of a page follow its lines: down the Date column the
    page adds the first texts of its Date lines and an empty entry for each
    of its Total lines, in the order of the lines, and nothing for any
    other line. *)
Theorem dates_follow_lines (page_idx : Z) (records : list (record string))
    (page_words : list word) :
  map Date (extract_page page_idx records page_words)
  = map Date records ++ flat_map line_date (page_lines page_words).
Proof.
  unfold extract_page, scan_lines. apply scan_fold_dates.
Qed.
